(** * FileNinja core: classification, conflict resolution, relocation,
      debounced scheduling and the watch session (src/core.py)

    A shallow embedding of [FileNinjaCore].

    - Python [str] values are [string]s, sequences of 8-bit characters;
      case conversion and the digit class act on ASCII only.
    - [pathlib.Path] values are their tuples of parts, with the POSIX
      flavour; [suffix] and [stem] follow CPython 3.8 to 3.12.
    - Dictionaries are [gmap]s, sets are [gset]s.
    - Methods that change [self] or the outside world are functions from
      states to states; library calls that may raise return a [result].
    - The file system is a finite map from paths to entries.  A path
      string names the entry at its parsed path; [".."], symbolic links and
      permissions are not modelled.
    - Time is an integer number of ticks.  Every method call and every
      timer thread runs as one atomic step. *)

From Stdlib Require Import ZArith NArith Bool Ascii String List Lia.
From stdpp Require Import gmap strings list fin_maps pretty sorting.

Local Open Scope string_scope.

(** ** Python string primitives *)

Module PyStr.

Definition is_upper (c : ascii) : bool :=
  let n := N_of_ascii c in ((65 <=? n) && (n <=? 90))%N.

Definition is_lower (c : ascii) : bool :=
  let n := N_of_ascii c in ((97 <=? n) && (n <=? 122))%N.

Definition is_digit (c : ascii) : bool :=
  let n := N_of_ascii c in ((48 <=? n) && (n <=? 57))%N.

Definition ascii_lower (c : ascii) : ascii :=
  if is_upper c then ascii_of_N (N_of_ascii c + 32) else c.

Definition ascii_upper (c : ascii) : ascii :=
  if is_lower c then ascii_of_N (N_of_ascii c - 32) else c.

(** [s.lower()] *)
Fixpoint lower (s : string) : string :=
  match s with
  | "" => ""
  | String c t => String (ascii_lower c) (lower t)
  end.

(** [s.title()]: a cased character is upper-cased when the previous
    character is not cased and lower-cased otherwise. *)
Fixpoint title_go (prev_cased : bool) (s : string) : string :=
  match s with
  | "" => ""
  | String c t =>
      let cased := is_upper c || is_lower c in
      String (if prev_cased then ascii_lower c else ascii_upper c)
             (title_go cased t)
  end.

Definition title (s : string) : string := title_go false s.

(** [s[n:]] and [s[:n]] for [n >= 0] *)
Fixpoint drop (n : nat) (s : string) : string :=
  match n, s with
  | O, _ => s
  | S _, "" => ""
  | S m, String _ t => drop m t
  end.

Fixpoint take (n : nat) (s : string) : string :=
  match n, s with
  | O, _ => ""
  | S _, "" => ""
  | S m, String c t => String c (take m t)
  end.

(** [s.startswith(p)] *)
Definition startswith (s p : string) : bool := String.prefix p s.

(** [s.endswith(p)] *)
Definition endswith (s p : string) : bool :=
  (String.length p <=? String.length s)%nat
  && String.eqb (drop (String.length s - String.length p) s) p.

(** [p in s] *)
Fixpoint contains (p s : string) : bool :=
  String.prefix p s
  || match s with
     | "" => false
     | String _ t => contains p t
     end.

(** [s.rfind(c)] for a single character; [None] stands for [-1]. *)
Fixpoint rfind (c : ascii) (s : string) : option nat :=
  match s with
  | "" => None
  | String a t =>
      match rfind c t with
      | Some i => Some (S i)
      | None => if Ascii.eqb a c then Some O else None
      end
  end.

(** [s.split(sep)] for a single-character separator *)
Fixpoint split (sep : ascii) (s : string) : list string :=
  match s with
  | "" => [""]
  | String c t =>
      if Ascii.eqb c sep then "" :: split sep t
      else match split sep t with
           | h :: r => String c h :: r
           | [] => [String c ""]
           end
  end.

(** [sorted(l)] on strings: insertion sort by code point order. *)
Fixpoint insert_sorted (x : string) (l : list string) : list string :=
  match l with
  | [] => [x]
  | y :: r => if String.leb x y then x :: l else y :: insert_sorted x r
  end.

Definition sorted (l : list string) : list string :=
  foldr insert_sorted [] l.

(** [re.search(r"(19|20)\d{2}", s)] as a truth value *)
Definition year_here (s : string) : bool :=
  match s with
  | String a (String b (String c (String d _))) =>
      ((Ascii.eqb a "1" && Ascii.eqb b "9") || (Ascii.eqb a "2" && Ascii.eqb b "0"))
      && is_digit c && is_digit d
  | _ => false
  end.

Fixpoint search_year (s : string) : bool :=
  year_here s
  || match s with
     | "" => false
     | String _ t => search_year t
     end.

(** [re.search(r"jan|feb|...|dec", s)] as a truth value *)
Definition search_month (s : string) : bool :=
  existsb (fun m => contains m s)
    ["jan"; "feb"; "mar"; "apr"; "may"; "jun";
     "jul"; "aug"; "sep"; "oct"; "nov"; "dec"].

End PyStr.

(** ** Paths *)

Module PyPath.
Import PyStr.

(** [os.path.basename] (posixpath): everything after the last slash. *)
Definition basename (p : string) : string :=
  match rfind "/" p with
  | Some i => drop (S i) p
  | None => p
  end.

(** [os.path.splitext(p)[0]] for a [p] without slash: split at the last dot
    unless only dots precede it. *)
Fixpoint all_dots (s : string) : bool :=
  match s with
  | "" => true
  | String c t => Ascii.eqb c "." && all_dots t
  end.

Definition splitext_root (p : string) : string :=
  match rfind "." p with
  | Some i => if all_dots (take i p) then p else take i p
  | None => p
  end.

(** A [Path] is its tuple of parts; an absolute path starts with the
    anchor part ["/"] (or ["//"] for exactly two leading slashes). *)
Abbreviation Path := (list string).

Definition is_anchor (c : string) : bool :=
  String.eqb c "/" || String.eqb c "//".

Definition anchor_of (s : string) : list string :=
  if startswith s "/" then
    if startswith s "//" && negb (startswith s "///") then ["//"] else ["/"]
  else [].

Definition is_component (c : string) : bool :=
  negb (String.eqb c "") && negb (String.eqb c ".").

(** [Path(s)] *)
Definition Path_of_string (s : string) : Path :=
  (anchor_of s ++ List.filter is_component (split "/" s))%list.

Definition anchored (p : Path) : bool :=
  match p with
  | c :: _ => is_anchor c
  | [] => false
  end.

(** [p.name] *)
Definition name (p : Path) : string :=
  if (List.length p =? (if anchored p then 1 else 0))%nat then ""
  else List.last p "".

(** [p.suffix] and [p.stem], from the name *)
Definition name_suffix (n : string) : string :=
  match rfind "." n with
  | Some i =>
      if (0 <? i)%nat && (i <? String.length n - 1)%nat then drop i n else ""
  | None => ""
  end.

Definition name_stem (n : string) : string :=
  match rfind "." n with
  | Some i =>
      if (0 <? i)%nat && (i <? String.length n - 1)%nat then take i n else n
  | None => n
  end.

Definition suffix (p : Path) : string := name_suffix (name p).
Definition stem (p : Path) : string := name_stem (name p).

(** [p.parent] *)
Definition parent (p : Path) : Path :=
  if (List.length p =? (if anchored p then 1 else 0))%nat then p
  else List.removelast p.

(** [p / c] for a string [c] that is a single plain component *)
Definition joinpath (p : Path) (c : string) : Path := (p ++ [c])%list.

End PyPath.

Import PyStr PyPath.

(** ** Configuration and the static tables *)

Record Config := {
  watched_folders : list string;
  organized_folder : string;
  auto_organize : bool;
  delay_seconds : Z;
  max_file_size_mb : N;
  ignore_patterns : list string
}.

(** The defaults of [_load_config]; [home] is the user's home directory. *)
Definition default_config (home : string) : Config := {|
  watched_folders := [home +:+ "/Downloads"];
  organized_folder := "./Organized_Files";
  auto_organize := true;
  delay_seconds := 2;
  max_file_size_mb := 1000;
  ignore_patterns :=
    ["*.tmp"; "*.temp"; "*.part"; "*.crdownload";
     ".DS_Store"; "Thumbs.db"; "*.lock"]
|}.

Definition file_type_mapping : gmap string string :=
  list_to_map
    [(".pdf", "PDFs");
     (".doc", "Documents"); (".docx", "Documents"); (".txt", "Documents");
     (".rtf", "Documents"); (".odt", "Documents"); (".xls", "Documents");
     (".xlsx", "Documents"); (".csv", "Documents"); (".ppt", "Documents");
     (".pptx", "Documents");
     (".jpg", "Images"); (".jpeg", "Images"); (".png", "Images");
     (".gif", "Images"); (".bmp", "Images"); (".svg", "Images");
     (".webp", "Images"); (".tiff", "Images");
     (".mp4", "Other"); (".avi", "Other"); (".mkv", "Other");
     (".mov", "Other"); (".wmv", "Other"); (".webm", "Other");
     (".mp3", "Other"); (".wav", "Other"); (".flac", "Other");
     (".aac", "Other"); (".ogg", "Other"); (".m4a", "Other");
     (".zip", "Other"); (".rar", "Other"); (".7z", "Other");
     (".tar", "Other"); (".gz", "Other");
     (".py", "Other"); (".js", "Other"); (".html", "Other");
     (".css", "Other"); (".json", "Other"); (".xml", "Other");
     (".exe", "Other"); (".msi", "Other")].

(** [_get_tag_rules]: tag label and its keywords, in dictionary order. *)
Definition tag_rules : list (string * list string) :=
  [("finance", ["invoice"; "receipt"; "bill"; "payment"; "tax"; "bank"; "statement"]);
   ("work", ["project"; "meeting"; "presentation"; "report"; "proposal"; "contract"]);
   ("personal", ["family"; "vacation"; "holiday"; "birthday"; "photo"; "travel"]);
   ("education", ["homework"; "assignment"; "exam"; "notes"; "lecture"; "study"])].

(** ** Classifier *)

(** The loop over [tag_rules.items()]: a category is added as soon as one
    of its keywords occurs in the name. *)
Definition rule_tags (name_without_ext : string) : gset string :=
  foldr (fun '(category, keywords) (tags : gset string) =>
           if existsb (fun keyword => contains keyword name_without_ext) keywords
           then {[category]} ∪ tags else tags)
        ∅ tag_rules.

Definition type_tag (file_extension : string) : gset string :=
  if String.eqb file_extension "" then ∅
  else {["type_" +:+ drop 1 file_extension]}.

Definition date_tag (name_without_ext : string) : gset string :=
  if search_year name_without_ext || search_month name_without_ext
  then {["dated"]} else ∅.

Definition get_file_tags (file_path : string) : list string :=
  let filename := lower (basename file_path) in
  let name_without_ext := splitext_root filename in
  let file_extension := lower (suffix (Path_of_string file_path)) in
  sorted (elements (rule_tags name_without_ext
                    ∪ type_tag file_extension
                    ∪ date_tag name_without_ext)).

Definition get_file_type (file_path : string) : string :=
  let extension := lower (suffix (Path_of_string file_path)) in
  default "Other" (file_type_mapping !! extension).

Definition priority_tags : list string :=
  ["finance"; "work"; "personal"; "education"].

Fixpoint first_priority (candidates tags : list string) : option string :=
  match candidates with
  | [] => None
  | priority_tag :: rest =>
      if bool_decide (priority_tag ∈ tags) then Some priority_tag
      else first_priority rest tags
  end.

(** [tags = None] is the omitted argument; an empty list is falsy too. *)
Definition get_destination_folder
    (base_folder : Path) (file_path : string) (tags : option (list string)) : Path :=
  let file_type := get_file_type file_path in
  match first_priority priority_tags (default [] tags) with
  | Some priority_tag => joinpath base_folder (title priority_tag +:+ "_Files")
  | None => joinpath base_folder file_type
  end.

(** ** Ignore filter *)

Fixpoint ignore_loop (filename : string) (patterns : list string) : bool :=
  match patterns with
  | [] => false
  | pattern :: rest =>
      if startswith pattern "*" && endswith filename (drop 1 pattern) then true
      else if endswith pattern "*"
              && startswith filename (take (String.length pattern - 1) pattern)
      then true
      else if contains pattern filename then true
      else ignore_loop filename rest
  end.

Definition should_ignore_file (config : Config) (file_path : string) : bool :=
  let filename := lower (basename file_path) in
  ignore_loop filename (ignore_patterns config).

(** ** The outside world: file system, clock and audit store *)

(** A file-system entry: a regular file or a directory, with the size
    [os.path.getsize] reports for it. *)
Inductive Node :=
  | File (size : N)
  | Dir (size : N).

Definition node_size (n : Node) : N :=
  match n with File s => s | Dir s => s end.

Definition node_is_file (n : Node) : bool :=
  match n with File _ => true | Dir _ => false end.

Definition node_is_dir (n : Node) : bool :=
  match n with File _ => false | Dir _ => true end.

(** Exceptions raised by the modelled library calls. *)
Inductive PyExc :=
  | FileNotFoundError
  | FileExistsError
  | NotADirectoryError
  | ShutilError
  | OSError
  | RuntimeError.

Inductive result (A : Type) :=
  | Ok (a : A)
  | Raise (e : PyExc).
Arguments Ok {A} a.
Arguments Raise {A} e.

Module OS.

(** The current directory and the root always exist; every other path
    exists when the file-system map has an entry for it.  A path string
    denotes the entry at [Path_of_string]; [".."] and symbolic links are
    not resolved. *)
Definition is_top (p : Path) : bool :=
  (List.length p =? (if anchored p then 1 else 0))%nat.

Definition stat (fs : gmap Path Node) (p : Path) : option Node :=
  if is_top p then Some (Dir 0) else fs !! p.

(** [p.exists()], [p.is_file()], [p.is_dir()] *)
Definition exists_ (fs : gmap Path Node) (p : Path) : bool :=
  match stat fs p with Some _ => true | None => false end.

Definition is_file (fs : gmap Path Node) (p : Path) : bool :=
  match stat fs p with Some n => node_is_file n | None => false end.

Definition is_dir (fs : gmap Path Node) (p : Path) : bool :=
  match stat fs p with Some n => node_is_dir n | None => false end.

(** [os.path.exists(s)]: the empty string names nothing. *)
Definition path_exists (fs : gmap Path Node) (s : string) : bool :=
  negb (String.eqb s "") && exists_ fs (Path_of_string s).

(** [os.path.getsize(s)] *)
Definition getsize (fs : gmap Path Node) (s : string) : result N :=
  if String.eqb s "" then Raise FileNotFoundError
  else match stat fs (Path_of_string s) with
       | Some n => Ok (node_size n)
       | None => Raise FileNotFoundError
       end.

(** [p.mkdir(parents=True, exist_ok=True)], walking the parts of [p] from
    the top: existing directories are kept, missing ones are created, and
    a regular file on the way raises.  [done] is the prefix already
    visited. *)
Fixpoint mkdir_from (fs : gmap Path Node) (done : Path) (todo : list string)
  : result (gmap Path Node) :=
  match todo with
  | [] => Ok fs
  | c :: rest =>
      let p := (done ++ [c])%list in
      match stat fs p with
      | Some (Dir _) => mkdir_from fs p rest
      | Some (File _) =>
          Raise (match rest with [] => FileExistsError | _ => NotADirectoryError end)
      | None => mkdir_from (<[p := Dir 0]> fs) p rest
      end
  end.

Definition mkdir_parents (fs : gmap Path Node) (p : Path) : result (gmap Path Node) :=
  mkdir_from fs [] p.

(** [shutil.move(src, dst)] for a source that is a regular file: a
    destination that is a directory receives the source under its own
    name, unless that name is taken; otherwise the source is renamed to
    [dst], replacing a regular file there.  The rename needs the source
    entry and the destination's directory. *)
Definition move (fs : gmap Path Node) (src dst : Path) : result (gmap Path Node) :=
  let real_dst := if is_dir fs dst then joinpath dst (name src) else dst in
  if is_dir fs dst && exists_ fs real_dst then Raise ShutilError
  else match fs !! src with
       | None => Raise FileNotFoundError
       | Some n =>
           if negb (is_dir fs (parent real_dst)) then Raise FileNotFoundError
           else Ok (<[real_dst := n]> (delete src fs))
       end.

End OS.

(** [datetime.now()] and [strftime("%Y%m%d_%H%M%S")] *)
Record DateTime := {
  year : N; month : N; day : N; hour : N; minute : N; second : N
}.

Definition pad2 (n : N) : string :=
  if (n <? 10)%N then "0" +:+ pretty n else pretty n.

Definition pad4 (n : N) : string :=
  if (n <? 10)%N then "000" +:+ pretty n
  else if (n <? 100)%N then "00" +:+ pretty n
  else if (n <? 1000)%N then "0" +:+ pretty n
  else pretty n.

Definition strftime_stamp (d : DateTime) : string :=
  pad4 (year d) +:+ pad2 (month d) +:+ pad2 (day d) +:+ "_"
  +:+ pad2 (hour d) +:+ pad2 (minute d) +:+ pad2 (second d).

(** The arguments of one call of the audit store's [log_file_movement]. *)
Record MoveRecord := {
  original_name : string;
  new_path : string;
  file_type : string;
  file_size : N;
  tags : list string
}.

(** How the audit store of src/db_manager.py answers: the import or the
    constructor raises; [connect()] returns [False]; the record call
    raises; the record call returns [False] after a database error; or the
    record is stored. *)
Inductive DbBehaviour :=
  | DbUnavailable
  | DbConnectFails
  | DbRecordRaises
  | DbRecordFails
  | DbOk.

Record World := {
  fs : gmap Path Node;
  today : DateTime;
  db : DbBehaviour;
  audit_calls : list MoveRecord;   (* calls of the record operation, oldest first *)
  audit_rows : list MoveRecord     (* records the store has kept *)
}.

Definition with_fs (w : World) (fs' : gmap Path Node) : World :=
  {| fs := fs'; today := today w; db := db w;
     audit_calls := audit_calls w; audit_rows := audit_rows w |}.

(** ** Conflict resolver *)

Section ConflictResolver.
Variable path_taken : Path -> bool.     (* [p.exists()] at call time *)
Variable timestamp : string.            (* the formatted current time *)

(** [parent / f"{base}_{tag}{suffix}"] *)
Definition numbered (dest_path : Path) (tag : string) : Path :=
  joinpath (parent dest_path)
           (stem dest_path +:+ "_" +:+ tag +:+ suffix dest_path).

(** The [while counter <= 1000] loop: [n] is the number of iterations
    left, so the loop is entered with [n = 1000] and [counter = 1]. *)
Fixpoint conflict_loop (dest_path : Path) (n counter : nat) : option Path :=
  match n with
  | O => None
  | S n' =>
      let new_path := numbered dest_path (pretty counter) in
      if negb (path_taken new_path) then Some new_path
      else conflict_loop dest_path n' (S counter)
  end.

Definition handle_filename_conflict (dest_path : Path) : Path :=
  if negb (path_taken dest_path) then dest_path
  else match conflict_loop dest_path 1000 1 with
       | Some new_path => new_path
       | None => numbered dest_path timestamp
       end.
End ConflictResolver.

(** [str(p)] *)
Fixpoint join_parts (l : list string) : string :=
  match l with
  | [] => ""
  | [c] => c
  | c :: r => c +:+ "/" +:+ join_parts r
  end.

Definition str_of_Path (p : Path) : string :=
  match p with
  | [] => "."
  | c :: r => if is_anchor c then c +:+ join_parts r else join_parts p
  end.

(** ** Relocator *)

Inductive Message :=
  | MovedTo (name : string)
  | InvalidSource (source_path : string)
  | ErrorMoving (e : PyExc).

Definition move_file (base_folder : Path) (w : World)
    (source_path : string) (tags : option (list string))
  : World * (bool * string * Message) :=
  let source := Path_of_string source_path in
  if negb (OS.exists_ (fs w) source) || negb (OS.is_file (fs w) source)
  then (w, (false, "", InvalidSource source_path))
  else
    let dest_folder := get_destination_folder base_folder source_path tags in
    let dest_path := joinpath dest_folder (name source) in
    let dest_path :=
      handle_filename_conflict (OS.exists_ (fs w)) (strftime_stamp (today w)) dest_path in
    match OS.mkdir_parents (fs w) (parent dest_path) with
    | Raise e => (w, (false, "", ErrorMoving e))
    | Ok fs1 =>
        match OS.move fs1 source dest_path with
        | Raise e => (with_fs w fs1, (false, "", ErrorMoving e))
        | Ok fs2 =>
            (with_fs w fs2, (true, str_of_Path dest_path, MovedTo (name dest_path)))
        end
    end.

Definition should_process_file (config : Config) (w : World) (file_path : string) : bool :=
  if should_ignore_file config file_path then false
  else
    let max_size := (max_file_size_mb config * 1024 * 1024)%N in
    match OS.getsize (fs w) file_path with
    | Raise _ => false
    | Ok sz => if (max_size <? sz)%N then false else true
    end.

(** [log_file_movement]: the record call is made only when the store
    connects; the size is read from the source path at the time of the
    call.  The return value of the record call is not used, and whatever
    is raised is caught. *)
Definition log_file_movement (w : World)
    (source_path dest_path : string) (tags : list string) : World :=
  match db w with
  | DbUnavailable => w
  | DbConnectFails => w
  | (DbRecordRaises | DbRecordFails | DbOk) as behaviour =>
      let original_name := basename source_path in
      let file_size :=
        if OS.path_exists (fs w) source_path then
          match OS.getsize (fs w) source_path with Ok sz => sz | Raise _ => 0%N end
        else 0%N in
      let file_type := get_file_type source_path in
      let r := {| original_name := original_name; new_path := dest_path;
                  file_type := file_type; file_size := file_size; tags := tags |} in
      {| fs := fs w; today := today w; db := db w;
         audit_calls := (audit_calls w ++ [r])%list;
         audit_rows := match behaviour with
                       | DbOk => (audit_rows w ++ [r])%list
                       | _ => audit_rows w
                       end |}
  end.

(** [process_file]: [event_type] is only printed.  Each callee catches
    what it raises, so the outer handler is not reached. *)
Definition process_file (base_folder : Path) (config : Config) (w : World)
    (file_path event_type : string) : World :=
  if negb (should_process_file config w file_path) then w
  else
    let tags := get_file_tags file_path in
    let '(w1, (success, dest_path, message)) :=
      move_file base_folder w file_path (Some tags) in
    if success then log_file_movement w1 file_path dest_path tags
    else w1.

(** ** Timers, the notification source and the core's mutable state *)

(** A [threading.Timer] object.  [finished] is its event flag: [cancel()]
    sets it, and the timer thread sets it after running the function.  The
    thread calls the function when the interval has passed and the flag is
    still clear. *)
Record Timer := {
  fire_at : Z;                 (* start time plus interval *)
  args : string * string;      (* file_path, event_type *)
  finished : bool
}.

Definition cancel (t : Timer) : Timer :=
  {| fire_at := fire_at t; args := args t; finished := true |}.

Record ObservedWatch := { watch_path : string; watch_recursive : bool }.

(** The watchdog observer, as far as the core uses it.  A thread can be
    started only once; [refused] lists the folders whose registration
    raises. *)
Record Observer := {
  emitters : list ObservedWatch;
  started : bool;
  stopped : bool;
  refused : list string
}.

Definition observer_schedule (o : Observer) (folder : string)
  : result (Observer * ObservedWatch) :=
  if bool_decide (folder ∈ refused o) then Raise OSError
  else
    let watch := {| watch_path := folder; watch_recursive := true |} in
    Ok ({| emitters := (emitters o ++ [watch])%list; started := started o;
           stopped := stopped o; refused := refused o |}, watch).

Definition observer_start (o : Observer) : result Observer :=
  if started o then Raise RuntimeError
  else Ok {| emitters := emitters o; started := true;
             stopped := stopped o; refused := refused o |}.

Definition observer_stop (o : Observer) : Observer :=
  {| emitters := []; started := started o; stopped := true; refused := refused o |}.

(** The instance attributes of [FileNinjaCore] that change over time.
    [pending_files] maps a path to a timer object, named by its position
    in [timers], the store of all timer objects created so far. *)
Record Core := {
  observer : Observer;
  watched_paths : gmap string ObservedWatch;
  is_running : bool;
  pending_files : gmap string nat;
  timers : list Timer
}.

Definition new_core (refused_folders : list string) : Core := {|
  observer := {| emitters := []; started := false; stopped := false;
                 refused := refused_folders |};
  watched_paths := ∅;
  is_running := false;
  pending_files := ∅;
  timers := []
|}.

(** ** Debounced event coordinator *)

Definition schedule_file_processing (config : Config) (now : Z) (c : Core)
    (file_path event_type : string) : Core :=
  let delay := delay_seconds config in
  let timers1 :=
    match pending_files c !! file_path with
    | Some i => alter cancel i (timers c)
    | None => timers c
    end in
  let timer := {| fire_at := now + delay; args := (file_path, event_type);
                  finished := false |} in
  {| observer := observer c; watched_paths := watched_paths c;
     is_running := is_running c;
     pending_files := <[file_path := List.length timers1]> (pending_files c);
     timers := (timers1 ++ [timer])%list |}.

(** File-system events as the handler sees them. *)
Inductive FileSystemEvent :=
  | EvCreated (src_path : string) (is_directory : bool)
  | EvMoved (src_path dest_path : string) (is_directory : bool)
  | EvModified (src_path : string) (is_directory : bool)
  | EvDeleted (src_path : string) (is_directory : bool).

(** [FileNinjaHandler]: only [on_created] and [on_moved] are overridden. *)
Definition dispatch (config : Config) (now : Z) (c : Core) (event : FileSystemEvent) : Core :=
  match event with
  | EvCreated src false => schedule_file_processing config now c src "created"
  | EvMoved _ dest false => schedule_file_processing config now c dest "moved"
  | _ => c
  end.

(** ** Watch session *)

(** The loop over [watched_folders]; an exception leaves the loop with
    what has been registered so far. *)
Fixpoint watch_loop (fsys : gmap Path Node) (folders : list string)
    (o : Observer) (wp : gmap string ObservedWatch)
  : Observer * gmap string ObservedWatch * option PyExc :=
  match folders with
  | [] => (o, wp, None)
  | folder :: rest =>
      if OS.path_exists fsys folder then
        match observer_schedule o folder with
        | Raise e => (o, wp, Some e)
        | Ok (o', watch) => watch_loop fsys rest o' (<[folder := watch]> wp)
        end
      else watch_loop fsys rest o wp
  end.

Definition start_watching (config : Config) (fsys : gmap Path Node) (c : Core)
  : Core * bool :=
  if is_running c then (c, false)
  else
    let '(o, wp, exc) :=
      watch_loop fsys (watched_folders config) (observer c) (watched_paths c) in
    let c1 := {| observer := o; watched_paths := wp; is_running := false;
                 pending_files := pending_files c; timers := timers c |} in
    match exc with
    | Some _ => (c1, false)
    | None =>
        if bool_decide (wp = ∅) then (c1, false)
        else match observer_start o with
             | Raise _ => (c1, false)
             | Ok o' =>
                 ({| observer := o'; watched_paths := wp; is_running := true;
                     pending_files := pending_files c; timers := timers c |}, true)
             end
    end.

(** [for timer in self.pending_files.values(): timer.cancel()] *)
Definition cancel_all (pending : gmap string nat) (ts : list Timer) : list Timer :=
  foldr (fun '(_, i) acc => alter cancel i acc) ts (map_to_list pending).

Definition stop_watching (c : Core) : Core :=
  if negb (is_running c) then c
  else
    {| observer := observer_stop (observer c);
       watched_paths := watched_paths c;
       is_running := false;
       pending_files := ∅;
       timers := cancel_all (pending_files c) (timers c) |}.

Record Status := {
  status_is_running : bool;
  status_watched_folders : list string;
  status_watched_count : nat;
  status_base_folder : string;
  status_pending_files : nat
}.

Definition get_status (base_folder : Path) (c : Core) : Status := {|
  status_is_running := is_running c;
  status_watched_folders := (map_to_list (watched_paths c)).*1;
  status_watched_count := size (watched_paths c);
  status_base_folder := str_of_Path base_folder;
  status_pending_files := size (pending_files c)
|}.

(** ** The running system

    The core, the world it acts on, the current time, and the trace of the
    calls [process_file(file_path, event_type)] made by timer threads. *)
Record Sys := {
  core : Core;
  world : World;
  clock : Z;
  processed : list (string * string)
}.

Section Run.
Variable base_folder : Path.
Variable config : Config.

(** The timer threads whose interval has passed by time [T] run, oldest
    timer first: each calls [process_file] unless its flag is set, and
    sets the flag. *)
Fixpoint run_due (T : Z) (ts : list Timer) (w : World) (log : list (string * string))
  : list Timer * World * list (string * string) :=
  match ts with
  | [] => ([], w, log)
  | t :: rest =>
      if negb (finished t) && (fire_at t <=? T)%Z then
        let w' := process_file base_folder config w (fst (args t)) (snd (args t)) in
        let '(rest', w'', log') := run_due T rest w' (log ++ [args t])%list in
        (cancel t :: rest', w'', log')
      else
        let '(rest', w'', log') := run_due T rest w log in
        (t :: rest', w'', log')
  end.

(** [dt] units of time pass. *)
Definition elapse (dt : Z) (s : Sys) : Sys :=
  let T := (clock s + dt)%Z in
  let '(ts, w, log) := run_due T (timers (core s)) (world s) (processed s) in
  {| core := {| observer := observer (core s);
                watched_paths := watched_paths (core s);
                is_running := is_running (core s);
                pending_files := pending_files (core s);
                timers := ts |};
     world := w; clock := T; processed := log |}.

(** A notification for [file_path] arrives now. *)
Definition notify (file_path event_type : string) (s : Sys) : Sys :=
  {| core := schedule_file_processing config (clock s) (core s) file_path event_type;
     world := world s; clock := clock s; processed := processed s |}.

Definition stop (s : Sys) : Sys :=
  {| core := stop_watching (core s);
     world := world s; clock := clock s; processed := processed s |}.

(** A burst: the first notification arrives now, each further one [gap]
    after the one before it. *)
Fixpoint burst (file_path : string) (first_kind : string)
    (more : list (Z * string)) (s : Sys) : Sys :=
  match more with
  | [] => notify file_path first_kind s
  | (gap, kind) :: rest =>
      burst file_path kind rest (elapse gap (notify file_path first_kind s))
  end.

Definition last_kind (first_kind : string) (more : list (Z * string)) : string :=
  List.last (first_kind :: more.*2) first_kind.
End Run.

(** ** Stats aggregator *)

(** The statistics dictionary; an entry of [by_type] is the pair of its
    [count] and [size]. *)
Record Stats := {
  total_files : nat;
  total_size : N;
  by_type : gmap string (nat * N);
  recent_activity : list string
}.

Definition empty_stats : Stats :=
  {| total_files := 0; total_size := 0; by_type := ∅; recent_activity := [] |}.

(** [base_folder.rglob('*')]: the entries below the folder.  In a file
    system where the parent of every entry is a directory these are the
    entries the recursive walk finds; the order of the walk does not
    matter to the totals. *)
Definition rglob_all (fsys : gmap Path Node) (base_folder : Path) : list (Path * Node) :=
  List.filter
    (fun entry => bool_decide (base_folder `prefix_of` fst entry)
                  && negb (bool_decide (fst entry = base_folder))
                  && bool_decide (anchored (fst entry) = anchored base_folder))
    (map_to_list fsys).

(** The body of the loop for one path.  Reading the size of an entry that
    is there does not raise. *)
Definition stats_step (stats : Stats) (entry : Path * Node) : Stats :=
  let '(file_path, node) := entry in
  if node_is_file node then
    let file_size := node_size node in
    let file_type := get_file_type (str_of_Path file_path) in
    let '(count, size) := default (0, 0%N) (by_type stats !! file_type) in
    {| total_files := S (total_files stats);
       total_size := (total_size stats + file_size)%N;
       by_type := <[file_type := (S count, (size + file_size)%N)]> (by_type stats);
       recent_activity := recent_activity stats |}
  else stats.

Definition get_organization_stats (base_folder : Path) (fsys : gmap Path Node) : Stats :=
  if negb (OS.exists_ fsys base_folder) then empty_stats
  else foldl stats_step empty_stats (rglob_all fsys base_folder).

(** * Vocabulary of the properties *)

(** ** Strings *)


(** Some character of [s] is an upper-case letter. *)
Fixpoint has_upper (s : string) : bool :=
  match s with
  | "" => false
  | String c t => is_upper c || has_upper t
  end.

(** ** Relocation and the audit store *)

(** Whether the audit store lets the record call happen. *)
Definition db_connects (b : DbBehaviour) : bool :=
  match b with
  | DbUnavailable | DbConnectFails => false
  | DbRecordRaises | DbRecordFails | DbOk => true
  end.

(** Whether processing [file_path] relocates the file. *)
Definition relocates (base_folder : Path) (config : Config) (w : World)
    (file_path : string) : bool :=
  should_process_file config w file_path
  && fst (fst (snd (move_file base_folder w file_path (Some (get_file_tags file_path))))).

(** ** Timers and traces *)

(** The invariant of the coordinator: a timer whose flag is clear is the
    one the pending map holds for its path. *)
Definition live_registered (c : Core) : Prop :=
  forall (i : nat) (t : Timer),
    timers c !! i = Some t -> finished t = false ->
    pending_files c !! (fst (args t)) = Some i.

(** A timer thread calls the function at time [T]. *)
Definition due (T : Z) (t : Timer) : bool :=
  negb (finished t) && (fire_at t <=? T)%Z.

(** The timer after time [T]. *)
Definition fire (T : Z) (t : Timer) : Timer :=
  if due T t then cancel t else t.

Definition for_path (file_path : string) (call : string * string) : bool :=
  String.eqb (fst call) file_path.

(** The calls of [process_file] for one path, in order. *)
Definition calls_for (file_path : string) (log : list (string * string))
  : list (string * string) :=
  List.filter (for_path file_path) log.

(** [P] has a timer for [kind] that will fire at [tau]. *)
Definition armed (P kind : string) (tau : Z) (c : Core) : Prop :=
  exists i, pending_files c !! P = Some i
    /\ timers c !! i = Some {| fire_at := tau; args := (P, kind); finished := false |}.

(** ** Reachable states *)

Section System.
Variable base_folder : Path.
Variable config : Config.

(** [start_watching] on the system's core and file system. *)
Definition start (s : Sys) : Sys :=
  {| core := fst (start_watching config (fs (world s)) (core s));
     world := world s; clock := clock s; processed := processed s |}.

(** The states reached from a fresh core by notifications, the passing of
    time, starting, stopping, and changes the environment makes to the
    world. *)
Inductive reachable : Sys -> Prop :=
  | reach_fresh (refused_folders : list string) (w : World) (t : Z) :
      reachable {| core := new_core refused_folders; world := w;
                   clock := t; processed := [] |}
  | reach_notify (s : Sys) (file_path event_type : string) :
      reachable s -> reachable (notify config file_path event_type s)
  | reach_elapse (s : Sys) (dt : Z) :
      reachable s -> reachable (elapse base_folder config dt s)
  | reach_start (s : Sys) :
      reachable s -> reachable (start s)
  | reach_stop (s : Sys) :
      reachable s -> reachable (stop s)
  | reach_world (s : Sys) (w : World) :
      reachable s ->
      reachable {| core := core s; world := w; clock := clock s;
                   processed := processed s |}.

End System.

(** ** Example configurations, worlds and systems *)

(** A configuration with the given ignore patterns. *)
Definition config_ignoring (patterns : list string) : Config := {|
  watched_folders := [];
  organized_folder := "./Organized_Files";
  auto_organize := true;
  delay_seconds := 2;
  max_file_size_mb := 1000;
  ignore_patterns := patterns
|}.

(** A file system in which the default watched folder exists. *)
Definition downloads_fs : gmap Path Node :=
  list_to_map [(["/"; "home"], Dir 4096); (["/"; "home"; "u"], Dir 4096);
               (["/"; "home"; "u"; "Downloads"], Dir 4096)].

(** The invoice of ten bytes in the folder [in], and an audit store that
    behaves as given. *)
Definition invoice_world (behaviour : DbBehaviour) : World := {|
  fs := list_to_map [(["in"], Dir 4096); (["in"; "invoice_2023.pdf"], File 10)];
  today := {| year := 2024; month := 3; day := 7; hour := 9; minute := 5; second := 0 |};
  db := behaviour;
  audit_calls := [];
  audit_rows := []
|}.

(** A fresh core in that world, at time 0. *)
Definition idle_system : Sys := {|
  core := new_core [];
  world := invoice_world DbOk;
  clock := 0;
  processed := []
|}.

(** Three files in a watched folder. *)
Definition three_files : World := {|
  fs := list_to_map [(["in"], Dir 4096); (["in"; "a.pdf"], File 1);
                     (["in"; "b.png"], File 2); (["in"; "c.txt"], File 3)];
  today := {| year := 2024; month := 3; day := 7; hour := 9; minute := 5; second := 0 |};
  db := DbOk;
  audit_calls := [];
  audit_rows := []
|}.

(** The default configuration, watching the folder [in]. *)
Definition inbox_config : Config := {|
  watched_folders := ["in"];
  organized_folder := "./Organized_Files";
  auto_organize := true;
  delay_seconds := 2;
  max_file_size_mb := 1000;
  ignore_patterns :=
    ["*.tmp"; "*.temp"; "*.part"; "*.crdownload";
     ".DS_Store"; "Thumbs.db"; "*.lock"]
|}.

(** The session is started, then one notification arrives for each file. *)
Definition three_pending : Sys :=
  notify inbox_config "in/c.txt" "created"
    (notify inbox_config "in/b.png" "moved"
       (notify inbox_config "in/a.pdf" "created"
          (start inbox_config
             {| core := new_core []; world := three_files;
                clock := 0; processed := [] |}))).

(** ** Classification *)

(** The file name as the tag rules see it: lower-cased, extension removed. *)
Definition name_without_ext (file_path : string) : string :=
  splitext_root (lower (basename file_path)).

(** The extension as the classifier sees it. *)
Definition file_extension (file_path : string) : string :=
  lower (suffix (Path_of_string file_path)).


(** The extensions the table maps to a category other than ["Other"]. *)
Definition known_extensions : list string :=
  [".pdf"; ".doc"; ".docx"; ".txt"; ".rtf"; ".odt"; ".xls"; ".xlsx"; ".csv";
   ".ppt"; ".pptx"; ".jpg"; ".jpeg"; ".png"; ".gif"; ".bmp"; ".svg"; ".webp";
   ".tiff"].


(** ** Coordinator *)

(** The pending map points at timers of its own path. *)
Definition pending_points_home (c : Core) : Prop :=
  forall (P : string) (i : nat),
    pending_files c !! P = Some i ->
    exists t, timers c !! i = Some t /\ fst (args t) = P.

(** The unfinished timers of one path. *)
Definition live_timers (P : string) (c : Core) : list Timer :=
  List.filter (fun t => negb (finished t) && String.eqb (fst (args t)) P) (timers c).

(** The handler receives an event now. *)
Definition deliver (config : Config) (event : FileSystemEvent) (s : Sys) : Sys :=
  {| core := dispatch config (clock s) (core s) event;
     world := world s; clock := clock s; processed := processed s |}.

(** ** Statistics *)




(** The destination root is a regular file: the move fails and the
    invoice stays. *)
Definition blocked_world : World := {|
  fs := list_to_map [(["Organized_Files"], File 1); (["in"], Dir 4096);
                     (["in"; "invoice_2023.pdf"], File 10)];
  today := {| year := 2024; month := 3; day := 7; hour := 9; minute := 5; second := 0 |};
  db := DbOk;
  audit_calls := [];
  audit_rows := []
|}.

(** A destination folder in which [report.docx], its thousand numbered
    names and its time-stamped name are all taken. *)
Definition crowded_world : World := {|
  fs := list_to_map
          ((["in"], Dir 4096) :: (["in"; "report.docx"], File 3)
           :: (["Organized_Files"], Dir 4096)
           :: (["Organized_Files"; "Work_Files"], Dir 4096)
           :: (["Organized_Files"; "Work_Files"; "report.docx"], File 1)
           :: (["Organized_Files"; "Work_Files"; "report_20240307_090500.docx"], File 2)
           :: List.map (fun n : nat =>
                          (["Organized_Files"; "Work_Files";
                            "report_" +:+ pretty n +:+ ".docx"], File 0))
                       (List.seq 1 1000));
  today := {| year := 2024; month := 3; day := 7; hour := 9; minute := 5; second := 0 |};
  db := DbOk;
  audit_calls := [];
  audit_rows := []
|}.

(** ** Tactics *)

(** Closes a goal whose hypotheses disagree on membership in a list with
    one more element in front. *)
Ltac member_clash :=
  exfalso;
  match goal with
  | H : ?j ∉ ?i :: ?l |- _ => apply H; first [left | right; assumption]
  | H : ?j ∈ ?i :: ?l |- _ => apply elem_of_cons in H as [->|H]; contradiction
  end.

(** * Properties *)

(** ** Case conversion commutes with the path primitives *)

Section LowerFacts.



Lemma lower_not_upper a : is_upper (ascii_lower a) = false.
Proof. destruct a as [[] [] [] [] [] [] [] []]; reflexivity. Qed.





Lemma lower_take n : forall s, take n (lower s) = lower (take n s).
Proof. induction n; intros [|a s]; simpl; auto. now rewrite IHn. Qed.















End LowerFacts.



(** ** The ignore filter and upper-case patterns *)

Lemma prefix_of_lower_no_upper p : forall s,
  String.prefix p (lower s) = true -> has_upper p = false.
Proof.
  induction p as [|b p IH]; intros [|a s]; simpl; try congruence.
  destruct (ascii_dec b (ascii_lower a)) as [->|]; [|congruence].
  intros H. now rewrite lower_not_upper, (IH s H).
Qed.

Lemma contains_in_lower_no_upper p s :
  contains p (lower s) = true -> has_upper p = false.
Proof.
  induction s as [|a s IH]; simpl; intros H.
  - rewrite orb_false_r in H. now apply (prefix_of_lower_no_upper p "").
  - apply orb_prop in H as [H|H]; [|auto].
    now apply (prefix_of_lower_no_upper p (String a s)).
Qed.

(** A pattern with an upper-case letter and without a star at either end
    matches no file at all: the file name is lower-cased, the pattern is
    not. *)
Lemma upper_case_pattern_is_dead (config : Config) (pattern file_path : string) :
  has_upper pattern = true ->
  startswith pattern "*" = false -> endswith pattern "*" = false ->
  ignore_patterns config = [pattern] ->
  should_ignore_file config file_path = false.
Proof.
  intros Hu Hs He Hc. unfold should_ignore_file. rewrite Hc. simpl.
  rewrite Hs, He. simpl.
  destruct (contains pattern (lower (basename file_path))) eqn:E; [|reflexivity].
  apply contains_in_lower_no_upper in E. congruence.
Qed.

(** C3. The ignore filter on the examples of the specification: ["*.tmp"]
    matches ["download.tmp"] and ["~*"] matches ["~lockfile"], but the
    pattern ["Thumbs.db"] matches neither ["Thumbs.db"] nor
    ["xThumbs.dby"], nor any other file, also under the default
    configuration that lists it. *)
Theorem ignore_pattern_examples :
  should_ignore_file (config_ignoring ["*.tmp"]) "download.tmp" = true
  /\ should_ignore_file (config_ignoring ["~*"]) "~lockfile" = true
  /\ should_ignore_file (config_ignoring ["Thumbs.db"]) "Thumbs.db" = false
  /\ should_ignore_file (config_ignoring ["Thumbs.db"]) "xThumbs.dby" = false
  /\ (forall home, should_ignore_file (default_config home) "Thumbs.db" = false)
  /\ (forall file_path,
        should_ignore_file (config_ignoring ["Thumbs.db"]) file_path = false).
Proof.
  repeat split; try (vm_compute; reflexivity).
  intros file_path.
  now apply (upper_case_pattern_is_dead _ "Thumbs.db").
Qed.

(** The lower-case spelling of the same pattern does match. *)
Example lower_case_pattern_matches :
  should_ignore_file (config_ignoring ["thumbs.db"]) "Thumbs.db" = true
  /\ should_ignore_file (config_ignoring ["thumbs.db"]) "xThumbs.dby" = true.
Proof. split; vm_compute; reflexivity. Qed.

(** ** Classification of the invoice *)

(** C5. A file named [invoice_2023.pdf], in whatever folder, gets exactly
    the sorted tags [dated], [finance], [type_pdf]; its plain category is
    [PDFs], and its destination folder is [Finance_Files] under the
    destination root, the priority tag overriding the category folder. *)
Theorem invoice_classification (base_folder : Path) (file_path : string) :
  basename file_path = "invoice_2023.pdf" ->
  name (Path_of_string file_path) = "invoice_2023.pdf" ->
  get_file_tags file_path = ["dated"; "finance"; "type_pdf"]
  /\ get_file_type file_path = "PDFs"
  /\ get_destination_folder base_folder file_path (Some (get_file_tags file_path))
     = joinpath base_folder "Finance_Files".
Proof.
  intros Hb Hn.
  assert (Ht : get_file_tags file_path = ["dated"; "finance"; "type_pdf"]).
  { unfold get_file_tags, suffix. rewrite Hb, Hn. vm_compute. reflexivity. }
  split; [exact Ht|]. split.
  - unfold get_file_type, suffix. rewrite Hn. vm_compute. reflexivity.
  - unfold get_destination_folder. rewrite Ht. reflexivity.
Qed.

Lemma invoice_classification_witness :
  get_file_tags "/home/u/Downloads/invoice_2023.pdf" = ["dated"; "finance"; "type_pdf"]
  /\ get_file_type "/home/u/Downloads/invoice_2023.pdf" = "PDFs"
  /\ get_destination_folder ["Organized_Files"] "/home/u/Downloads/invoice_2023.pdf"
       (Some (get_file_tags "/home/u/Downloads/invoice_2023.pdf"))
     = ["Organized_Files"; "Finance_Files"].
Proof.
  apply (invoice_classification ["Organized_Files"] "/home/u/Downloads/invoice_2023.pdf");
    vm_compute; reflexivity.
Defined.

(** Without a priority tag the category folder is used. *)
Example plain_category_folder :
  get_destination_folder ["Organized_Files"] "in/picture.png"
    (Some (get_file_tags "in/picture.png")) = ["Organized_Files"; "Images"].
Proof. vm_compute. reflexivity. Qed.

(** ** Conflict resolution *)

Section StringFacts.

Lemma append_cons (c : ascii) (a b : string) :
  String c a +:+ b = String c (a +:+ b).
Proof. reflexivity. Qed.

Lemma length_append (a b : string) :
  String.length (a +:+ b) = (String.length a + String.length b)%nat.
Proof.
  induction a as [|c a IH]; [reflexivity|].
  rewrite append_cons. simpl. now rewrite IH.
Qed.

Lemma take_drop_id (i : nat) : forall s, take i s +:+ drop i s = s.
Proof.
  induction i as [|i IH]; intros [|a s]; try reflexivity.
  simpl. now rewrite append_cons, IH.
Qed.

Lemma append_empty (s : string) : s +:+ "" = s.
Proof.
  induction s as [|c s IH]; [reflexivity|]. now rewrite append_cons, IH.
Qed.

Lemma name_stem_suffix (n : string) : name_stem n +:+ name_suffix n = n.
Proof.
  unfold name_stem, name_suffix.
  destruct (rfind "." n) as [i|]; [|apply append_empty].
  destruct (_ && _); [apply take_drop_id|apply append_empty].
Qed.

(** A numbered name is longer than the name it is made from. *)
Lemma numbered_name_longer (n tag : string) :
  String.length (name_stem n +:+ "_" +:+ tag +:+ name_suffix n) > String.length n.
Proof.
  pose proof (f_equal String.length (name_stem_suffix n)) as H.
  rewrite length_append in H.
  rewrite !length_append. simpl. lia.
Qed.

End StringFacts.

Section ConflictFacts.
Variable path_taken : Path -> bool.
Variable timestamp : string.

Lemma numbered_last (d : Path) (tag : string) :
  List.last (numbered d tag) "" = stem d +:+ "_" +:+ tag +:+ suffix d.
Proof. unfold numbered, joinpath. apply List.last_last. Qed.


Lemma conflict_loop_some (d : Path) (n : nat) : forall (counter : nat) (r : Path),
  conflict_loop path_taken d n counter = Some r ->
  exists k, counter <= k < counter + n
    /\ r = numbered d (pretty k)
    /\ path_taken r = false
    /\ forall m, counter <= m < k -> path_taken (numbered d (pretty m)) = true.
Proof.
  induction n as [|n IH]; intros counter r; simpl; [discriminate|].
  destruct (path_taken (numbered d (pretty counter))) eqn:E; simpl.
  - intros H. destruct (IH _ _ H) as (k & Hk & Hr & Hf & Hm).
    exists k. repeat split; try assumption; try lia.
    intros m Hmk. destruct (decide (m = counter)) as [->|]; [exact E|].
    apply Hm. lia.
  - intros [= <-]. exists counter. repeat split; try assumption; try lia.
Qed.

Lemma conflict_loop_none (d : Path) (n : nat) : forall counter : nat,
  conflict_loop path_taken d n counter = None ->
  forall m, counter <= m < counter + n -> path_taken (numbered d (pretty m)) = true.
Proof.
  induction n as [|n IH]; intros counter; simpl; [intros _ m Hm; lia|].
  destruct (path_taken (numbered d (pretty counter))) eqn:E; simpl; [|discriminate].
  intros H m Hm. destruct (decide (m = counter)) as [->|]; [exact E|].
  apply (IH _ H). lia.
Qed.

(** The three ways the resolver answers. *)
Lemma handle_filename_conflict_cases (d : Path) :
  let r := handle_filename_conflict path_taken timestamp d in
  (path_taken d = false /\ r = d)
  \/ (path_taken d = true /\ path_taken r = false
      /\ exists k, 1 <= k <= 1000 /\ r = numbered d (pretty k))
  \/ (path_taken d = true /\ r = numbered d timestamp).
Proof.
  unfold handle_filename_conflict.
  destruct (path_taken d) eqn:Ed; cbn [negb]; [|left; split; reflexivity].
  right. destruct (conflict_loop path_taken d 1000 1) as [r|] eqn:El.
  - left. apply conflict_loop_some in El as (k & Hk & Hr & Hf & Hm).
    repeat split; try assumption. exists k. split; [lia|assumption].
  - right. split; reflexivity.
Qed.

End ConflictFacts.


(** Two files named [report.docx]: the second one becomes [report_1.docx]. *)
Example second_report_docx :
  handle_filename_conflict
    (fun p => bool_decide (p = ["Organized_Files"; "Work_Files"; "report.docx"]))
    "20240307_090500" ["Organized_Files"; "Work_Files"; "report.docx"]
  = ["Organized_Files"; "Work_Files"; "report_1.docx"].
Proof. vm_compute. reflexivity. Qed.

(** With every name taken the timestamp name is returned although it is
    taken too. *)
Example timestamp_fallback_not_checked :
  handle_filename_conflict (fun _ => true) "20240307_090500" ["a"; "report.docx"]
  = ["a"; "report_20240307_090500.docx"].
Proof. vm_compute. reflexivity. Qed.

(** The thousandth numbered name is still tried. *)
Example last_numbered_name :
  handle_filename_conflict
    (fun p => negb (bool_decide (p = ["a"; "report_1000.docx"])))
    "20240307_090500" ["a"; "report.docx"]
  = ["a"; "report_1000.docx"].
Proof. vm_compute. reflexivity. Qed.

(** ** Starting the watch session *)

Section WatchFacts.
Variable fsys : gmap Path Node.

Lemma observer_schedule_accepts (o : Observer) (folder : string) :
  folder ∉ refused o ->
  exists o' watch, observer_schedule o folder = Ok (o', watch)
    /\ started o' = started o /\ refused o' = refused o.
Proof.
  intros H. unfold observer_schedule.
  rewrite bool_decide_eq_false_2 by assumption.
  eexists _, _. split; [reflexivity|]. split; reflexivity.
Qed.

(** When no folder is refused the loop ends without exception, and the
    registry is empty afterwards only if it was empty before and no
    folder exists. *)
Lemma watch_loop_accepting (folders : list string) :
  forall (o : Observer) (wp : gmap string ObservedWatch),
  (forall folder, folder ∈ folders -> folder ∉ refused o) ->
  exists o' wp', watch_loop fsys folders o wp = (o', wp', None)
    /\ started o' = started o
    /\ (wp' = ∅ <->
        wp = ∅ /\ forall folder, folder ∈ folders -> OS.path_exists fsys folder = false).
Proof.
  induction folders as [|folder rest IH]; intros o wp Hacc; simpl.
  - exists o, wp. split; [reflexivity|]. split; [reflexivity|].
    split; [|tauto]. intros ->. split; [reflexivity|].
    intros folder Hin. inversion Hin.
  - destruct (OS.path_exists fsys folder) eqn:Ex.
    + destruct (observer_schedule_accepts o folder) as (o1 & watch & -> & Hs & Hr).
      { apply Hacc. left. }
      destruct (IH o1 (<[folder := watch]> wp)) as (o' & wp' & -> & Hs' & Hwp).
      { intros f Hf. rewrite Hr. apply Hacc. now right. }
      exists o', wp'. split; [reflexivity|]. split; [congruence|].
      split.
      * intros E. apply Hwp in E as [E _].
        now apply insert_non_empty in E.
      * intros [_ Hno]. specialize (Hno folder). rewrite Ex in Hno.
        discriminate Hno. left.
    + destruct (IH o wp) as (o' & wp' & -> & Hs' & Hwp).
      { intros f Hf. apply Hacc. now right. }
      exists o', wp'. split; [reflexivity|]. split; [assumption|].
      rewrite Hwp. split.
      * intros [-> Hno]. split; [reflexivity|].
        intros f Hf. inversion Hf; subst; auto.
      * intros [-> Hno]. split; [reflexivity|].
        intros f Hf. apply Hno. now right.
Qed.

(** The guard at the top of [start_watching]. *)
Lemma start_watching_already_running (config : Config) (c : Core) :
  is_running c = true -> start_watching config fsys c = (c, false).
Proof. unfold start_watching. now intros ->. Qed.

End WatchFacts.

(** C2, as the code has it.  For a session that is not running, whose
    notification source has not been started yet and refuses none of the
    configured roots, [start_watching] returns true as soon as one
    configured root exists; it returns false exactly when nothing is
    registered: no configured root exists and none was registered before. *)
Theorem start_watching_some_root
    (config : Config) (fsys : gmap Path Node) (c : Core) :
  is_running c = false ->
  started (observer c) = false ->
  (forall folder, folder ∈ watched_folders config -> folder ∉ refused (observer c)) ->
  ((exists folder, folder ∈ watched_folders config
                   /\ OS.path_exists fsys folder = true) ->
   snd (start_watching config fsys c) = true)
  /\ (snd (start_watching config fsys c) = false <->
      watched_paths c = ∅
      /\ forall folder, folder ∈ watched_folders config ->
                        OS.path_exists fsys folder = false).
Proof.
  intros Hrun Hst Hacc.
  assert (Hiff : snd (start_watching config fsys c) = false <->
      watched_paths c = ∅
      /\ forall folder, folder ∈ watched_folders config ->
                        OS.path_exists fsys folder = false).
  { unfold start_watching. rewrite Hrun.
    destruct (watch_loop_accepting fsys (watched_folders config)
                (observer c) (watched_paths c) Hacc) as (o' & wp' & -> & Hs & Hwp).
    destruct (decide (wp' = ∅)) as [E|NE].
    - rewrite bool_decide_eq_true_2 by assumption. simpl.
      split; [intros _; now apply Hwp|reflexivity].
    - rewrite bool_decide_eq_false_2 by assumption.
      unfold observer_start. rewrite Hs, Hst. simpl.
      split; [discriminate|]. intros H. apply Hwp in H. contradiction. }
  split; [|exact Hiff].
  intros (folder & Hin & Hex).
  apply not_false_iff_true. intros E.
  apply Hiff in E as [_ Hno]. rewrite (Hno folder Hin) in Hex. discriminate.
Qed.

Lemma start_watching_some_root_witness :
  snd (start_watching (default_config "/home/u") downloads_fs (new_core [])) = true.
Proof.
  apply (start_watching_some_root (default_config "/home/u") downloads_fs (new_core [])).
  - reflexivity.
  - reflexivity.
  - intros folder _ Hin. inversion Hin.
  - exists "/home/u/Downloads". split; [left|]. vm_compute. reflexivity.
Defined.

(** C2 as stated fails: a session that is already running answers false
    although its configured root exists. *)
Lemma start_watching_running_counterexample :
  ~ (forall (config : Config) (fsys : gmap Path Node) (c : Core),
       (exists folder, folder ∈ watched_folders config
                       /\ OS.path_exists fsys folder = true) ->
       snd (start_watching config fsys c) = true).
Proof.
  intros H.
  specialize (H (default_config "/home/u") downloads_fs
                (fst (start_watching (default_config "/home/u") downloads_fs (new_core [])))).
  assert (Hex : exists folder, folder ∈ watched_folders (default_config "/home/u")
                       /\ OS.path_exists downloads_fs folder = true).
  { exists "/home/u/Downloads". split; [left|]. vm_compute. reflexivity. }
  specialize (H Hex). vm_compute in H. discriminate H.
Qed.

(** ** Relocation and the audit record *)

Section RelocationFacts.

Lemma stat_not_top (fsys : gmap Path Node) (p : Path) :
  OS.is_top p = false -> OS.stat fsys p = fsys !! p.
Proof. unfold OS.stat. now intros ->. Qed.

Lemma is_file_lookup (fsys : gmap Path Node) (p : Path) :
  OS.is_file fsys p = true ->
  OS.is_top p = false /\ exists sz, fsys !! p = Some (File sz).
Proof.
  unfold OS.is_file, OS.stat. destruct (OS.is_top p); [discriminate|].
  destruct (fsys !! p) as [[sz|sz]|]; try discriminate.
  intros _. split; [reflexivity|]. now exists sz.
Qed.

(** Creating directories leaves every existing entry as it is. *)
Lemma mkdir_from_keeps (todo : list string) :
  forall (fsys : gmap Path Node) (done : Path) (fs1 : gmap Path Node),
  OS.mkdir_from fsys done todo = Ok fs1 ->
  forall p n, fsys !! p = Some n -> fs1 !! p = Some n.
Proof.
  induction todo as [|c rest IH]; intros fsys done fs1; simpl.
  - intros [= <-] p n H. exact H.
  - destruct (OS.stat fsys (done ++ [c])%list) as [[sz|sz]|] eqn:Es.
    + discriminate.
    + apply IH.
    + intros Hm p n Hp. apply (IH _ _ _ Hm).
      rewrite lookup_insert_ne; [exact Hp|].
      intros <-. unfold OS.stat in Es.
      destruct (OS.is_top (done ++ [c])%list); congruence.
Qed.

Lemma get_destination_folder_shape (base : Path) (p : string) (tgs : option (list string)) :
  exists X, get_destination_folder base p tgs = (base ++ [X])%list.
Proof.
  unfold get_destination_folder, joinpath.
  destruct (first_priority priority_tags (default [] tgs)); eexists; reflexivity.
Qed.

Lemma name_of_joinpath (folder : Path) (n : string) :
  folder <> [] -> name (joinpath folder n) = n.
Proof.
  intros Hf. unfold name, joinpath. rewrite List.last_last.
  assert (H : (List.length (folder ++ [n]) =?
               (if anchored (folder ++ [n]) then 1 else 0))%nat = false).
  { apply Nat.eqb_neq. rewrite List.length_app.
    destruct folder as [|c folder]; [contradiction|]. simpl.
    destruct (is_anchor c); lia. }
  now rewrite H.
Qed.

(** A numbered or time-stamped name for a file differs from the path the
    file comes from. *)
Lemma numbered_differs_from_source (folder source : Path) (tag : string) :
  folder <> [] -> OS.is_top source = false ->
  numbered (joinpath folder (name source)) tag <> source.
Proof.
  intros Hf Ht E.
  apply (f_equal (fun p => List.last p "")) in E.
  rewrite numbered_last in E. unfold stem, suffix in E.
  rewrite (name_of_joinpath _ _ Hf) in E.
  pose proof (numbered_name_longer (name source) tag) as Hlen.
  rewrite E in Hlen. unfold name, OS.is_top in *. rewrite Ht in Hlen. lia.
Qed.

(** After a successful move the source path names nothing, the file
    lives on elsewhere with its size, and the audit store is untouched. *)
Lemma move_file_success (base : Path) (w w' : World) (src : string)
    (tgs : option (list string)) (dp : string) (msg : Message) :
  move_file base w src tgs = (w', (true, dp, msg)) ->
  OS.path_exists (fs w') src = false
  /\ (exists p sz, fs w !! Path_of_string src = Some (File sz)
                   /\ fs w' !! p = Some (File sz))
  /\ db w' = db w /\ audit_calls w' = audit_calls w /\ audit_rows w' = audit_rows w.
Proof.
  unfold move_file.
  set (source := Path_of_string src).
  destruct (get_destination_folder_shape base src tgs) as [X ->].
  set (d0 := joinpath (base ++ [X])%list (name source)).
  pose proof (handle_filename_conflict_cases
                (OS.exists_ (fs w)) (strftime_stamp (today w)) d0) as Hcases.
  set (dst := handle_filename_conflict _ _ d0) in *.
  destruct (negb (OS.exists_ (fs w) source) || negb (OS.is_file (fs w) source)) eqn:Eg;
    [discriminate|].
  apply orb_false_elim in Eg as [Hex Hfile].
  apply negb_false_iff in Hex, Hfile.
  destruct (is_file_lookup _ _ Hfile) as [Htop [sz Hsz]].
  destruct (OS.mkdir_parents (fs w) (parent dst)) as [fs1|] eqn:Em; [|discriminate].
  destruct (OS.move fs1 source dst) as [fs2|] eqn:Emv; [|discriminate].
  intros [= <- _ _].
  assert (Hsz1 : fs1 !! source = Some (File sz)).
  { eapply mkdir_from_keeps; [exact Em|exact Hsz]. }
  unfold OS.move in Emv.
  set (real_dst := if OS.is_dir fs1 dst then joinpath dst (name source) else dst) in *.
  destruct (OS.is_dir fs1 dst && OS.exists_ fs1 real_dst) eqn:Eguard; [discriminate|].
  rewrite Hsz1 in Emv.
  destruct (negb (OS.is_dir fs1 (parent real_dst))); [discriminate|].
  injection Emv as <-.
  assert (Hne : real_dst <> source).
  { subst real_dst. destruct (OS.is_dir fs1 dst) eqn:Edir.
    - simpl in Eguard. intros E. rewrite E in Eguard.
      unfold OS.exists_ in Eguard. rewrite stat_not_top, Hsz1 in Eguard by assumption.
      discriminate.
    - destruct Hcases as [[Hfree ->] | [(_ & Hfree & _) | [_ ->]]].
      + intros E. rewrite E in Hfree. congruence.
      + intros E. rewrite E in Hfree. congruence.
      + apply numbered_differs_from_source; [|assumption].
        intros E. now apply List.app_eq_nil in E as [_ E]. }
  split; [|split].
  - unfold OS.path_exists, OS.exists_. simpl. fold source.
    rewrite stat_not_top by assumption.
    rewrite lookup_insert_ne, lookup_delete_eq by assumption.
    apply andb_false_r.
  - exists real_dst, sz. split; [assumption|]. simpl. apply lookup_insert_eq.
  - repeat split; reflexivity.
Qed.

(** A move that fails, or is not attempted, leaves the audit store alone. *)
Lemma move_file_audit (base : Path) (w : World) (src : string)
    (tgs : option (list string)) :
  let w' := fst (move_file base w src tgs) in
  db w' = db w /\ audit_calls w' = audit_calls w /\ audit_rows w' = audit_rows w.
Proof.
  unfold move_file.
  set (dst := handle_filename_conflict _ _ _).
  destruct (negb _ || negb _); [repeat split; reflexivity|].
  destruct (OS.mkdir_parents _ _); [|repeat split; reflexivity].
  destruct (OS.move _ _ _); repeat split; reflexivity.
Qed.

Lemma log_file_movement_fs (w : World) (src dp : string) (tgs : list string) :
  fs (log_file_movement w src dp tgs) = fs w.
Proof. unfold log_file_movement. destruct (db w); reflexivity. Qed.

End RelocationFacts.

(** C7, as the code has it.  Processing a file calls the record operation
    at most once: exactly once when the file was relocated and the audit
    store could be built and connected, and not at all otherwise, so
    never for a failed relocation.  Whatever the audit store does, the
    file system is left as the move left it. *)
Theorem audit_call_per_relocation
    (base_folder : Path) (config : Config) (w : World) (file_path event_type : string) :
  let w' := process_file base_folder config w file_path event_type in
  let moved := move_file base_folder w file_path (Some (get_file_tags file_path)) in
  (exists l, audit_calls w' = (audit_calls w ++ l)%list
     /\ List.length l =
        if relocates base_folder config w file_path && db_connects (db w)
        then 1 else 0)
  /\ fs w' = (if should_process_file config w file_path then fs (fst moved) else fs w).
Proof.
  unfold process_file, relocates.
  destruct (should_process_file config w file_path); cbn [negb andb].
  2:{ split; [|reflexivity]. exists []. now rewrite List.app_nil_r. }
  pose proof (move_file_audit base_folder w file_path (Some (get_file_tags file_path)))
    as (Hdb & Hcalls & _).
  destruct (move_file base_folder w file_path (Some (get_file_tags file_path)))
    as [w1 [[success dp] msg]].
  cbn [fst snd] in *.
  destruct success.
  - rewrite log_file_movement_fs. split; [|reflexivity].
    unfold log_file_movement. rewrite Hdb, Hcalls.
    destruct (db w); cbn [db_connects audit_calls].
    + exists []. now rewrite List.app_nil_r.
    + exists []. now rewrite List.app_nil_r.
    + eexists [_]. split; reflexivity.
    + eexists [_]. split; reflexivity.
    + eexists [_]. split; reflexivity.
  - split; [|reflexivity]. exists []. now rewrite List.app_nil_r, Hcalls.
Qed.

(** C7 as stated fails: the file is relocated, the audit store does not
    connect, and the record operation is not called. *)
Lemma audit_not_called_counterexample :
  ~ (forall (base_folder : Path) (config : Config) (w : World)
            (file_path event_type : string),
       relocates base_folder config w file_path = true ->
       List.length (audit_calls (process_file base_folder config w file_path event_type))
       = S (List.length (audit_calls w))).
Proof.
  intros H.
  specialize (H ["Organized_Files"] (default_config "/home/u")
                (invoice_world DbConnectFails) "in/invoice_2023.pdf" "created").
  assert (Hr : relocates ["Organized_Files"] (default_config "/home/u")
                 (invoice_world DbConnectFails) "in/invoice_2023.pdf" = true)
    by (vm_compute; reflexivity).
  specialize (H Hr). vm_compute in H. discriminate H.
Qed.

(** A record call that raises: the file stays at its new place, the call
    was made once, and nothing was stored. *)
Example audit_failure_keeps_move :
  let w' := process_file ["Organized_Files"] (default_config "/home/u")
              (invoice_world DbRecordRaises) "in/invoice_2023.pdf" "created" in
  fs w' !! ["Organized_Files"; "Finance_Files"; "invoice_2023.pdf"] = Some (File 10)
  /\ fs w' !! ["in"; "invoice_2023.pdf"] = None
  /\ List.length (audit_calls w') = 1
  /\ audit_rows w' = [].
Proof. vm_compute. repeat split; reflexivity. Qed.

(** A failed relocation: the source is gone by the time the timer fires. *)
Example vanished_source_not_recorded :
  let w' := process_file ["Organized_Files"] (default_config "/home/u")
              (invoice_world DbOk) "in/other.pdf" "created" in
  w' = invoice_world DbOk.
Proof. vm_compute. reflexivity. Qed.



(** ** Debounce: timers and the pending map *)

Section TimerFacts.
Variable base_folder : Path.
Variable config : Config.

Lemma run_due_spec (T : Z) (ts : list Timer) :
  forall (w : World) (log : list (string * string)),
  exists w',
    run_due base_folder config T ts w log
    = (fire T <$> ts, w', (log ++ List.map args (List.filter (due T) ts))%list).
Proof.
  induction ts as [|t ts IH]; intros w log; simpl.
  - exists w. now rewrite List.app_nil_r.
  - unfold fire at 1, due at 1 2.
    destruct (negb (finished t) && (fire_at t <=? T)%Z).
    + destruct (IH (process_file base_folder config w (fst (args t)) (snd (args t)))
                   (log ++ [args t])%list) as [w' ->].
      exists w'. simpl. now rewrite <- List.app_assoc.
    + destruct (IH w log) as [w' ->]. now exists w'.
Qed.

(** Timers whose flags are all set do nothing. *)
Lemma run_due_all_finished (T : Z) (ts : list Timer) :
  Forall (fun t => finished t = true) ts ->
  forall w log, run_due base_folder config T ts w log = (ts, w, log).
Proof.
  induction 1 as [|t ts Ht _ IH]; intros w log; simpl; [reflexivity|].
  rewrite Ht. cbn [negb andb]. now rewrite IH.
Qed.

Lemma elapse_core (dt : Z) (s : Sys) :
  pending_files (core (elapse base_folder config dt s)) = pending_files (core s)
  /\ is_running (core (elapse base_folder config dt s)) = is_running (core s)
  /\ timers (core (elapse base_folder config dt s))
     = fire (clock s + dt) <$> timers (core s)
  /\ processed (elapse base_folder config dt s)
     = (processed s
        ++ List.map args (List.filter (due (clock s + dt)) (timers (core s))))%list
  /\ clock (elapse base_folder config dt s) = (clock s + dt)%Z.
Proof.
  unfold elapse.
  destruct (run_due_spec (clock s + dt) (timers (core s)) (world s) (processed s))
    as [w' ->].
  repeat split; reflexivity.
Qed.

Lemma live_registered_new (refused_folders : list string) :
  live_registered (new_core refused_folders).
Proof. intros i t H. destruct i; discriminate H. Qed.

Lemma live_registered_elapse (dt : Z) (s : Sys) :
  live_registered (core s) ->
  live_registered (core (elapse base_folder config dt s)).
Proof.
  intros Hinv i t.
  destruct (elapse_core dt s) as (-> & _ & -> & _).
  rewrite list_lookup_fmap.
  destruct (timers (core s) !! i) as [u|] eqn:Eu; [|discriminate].
  intros [= <-] Hf. unfold fire in *.
  destruct (due (clock s + dt) u); [discriminate Hf|].
  now apply Hinv.
Qed.

Lemma live_registered_schedule (now : Z) (c : Core) (file_path event_type : string) :
  live_registered c ->
  live_registered (schedule_file_processing config now c file_path event_type).
Proof.
  intros Hinv j u. unfold schedule_file_processing. cbn [timers pending_files].
  set (timers1 := match pending_files c !! file_path with
                  | Some i => alter cancel i (timers c)
                  | None => timers c
                  end).
  assert (Hlen : List.length timers1 = List.length (timers c)).
  { subst timers1. destruct (pending_files c !! file_path); [apply length_alter|reflexivity]. }
  intros Hj Hf.
  destruct (decide (j < List.length timers1)) as [Hlt|Hge].
  - rewrite lookup_app_l in Hj by assumption.
    assert (Hold : timers c !! j = Some u /\ pending_files c !! file_path <> Some j).
    { subst timers1. destruct (pending_files c !! file_path) as [i|] eqn:Ep.
      - destruct (decide (i = j)) as [->|Hne].
        + rewrite list_lookup_alter_eq in Hj.
          destruct (timers c !! j); [|discriminate].
          injection Hj as <-. discriminate Hf.
        + rewrite list_lookup_alter_ne in Hj by assumption.
          split; [assumption|congruence].
      - split; [assumption|discriminate]. }
    destruct Hold as [Hu Hp].
    pose proof (Hinv j u Hu Hf) as Hreg.
    rewrite lookup_insert_ne; [exact Hreg|].
    intros E. rewrite E in Hp. contradiction.
  - rewrite lookup_app_r in Hj by lia.
    destruct (j - List.length timers1) as [|n] eqn:En; [|destruct n; discriminate Hj].
    injection Hj as <-. cbn [args fst].
    rewrite lookup_insert_eq. f_equal. lia.
Qed.

Lemma live_registered_notify (file_path event_type : string) (s : Sys) :
  live_registered (core s) ->
  live_registered (core (notify config file_path event_type s)).
Proof. apply live_registered_schedule. Qed.

End TimerFacts.

Section FilterFacts.
Context {A : Type} (Q : A -> bool).

Lemma filter_none (l : list A) :
  (forall j u, l !! j = Some u -> Q u = false) -> List.filter Q l = [].
Proof.
  induction l as [|x l IH]; intros H; simpl; [reflexivity|].
  rewrite (H 0 x eq_refl). apply IH.
  intros j u Hj. exact (H (S j) u Hj).
Qed.

(** At most the element at position [i] passes the filter. *)
Lemma filter_unique (l : list A) : forall (i : nat) (t : A),
  l !! i = Some t ->
  (forall j u, l !! j = Some u -> Q u = true -> j = i) ->
  List.filter Q l = if Q t then [t] else [].
Proof.
  induction l as [|x l IH]; intros i t Hi Huniq; [destruct i; discriminate Hi|].
  destruct i as [|i]; simpl in *.
  - injection Hi as ->.
    rewrite (filter_none l); [reflexivity|].
    intros j u Hj. destruct (Q u) eqn:E; [|reflexivity].
    specialize (Huniq (S j) u Hj E). discriminate Huniq.
  - destruct (Q x) eqn:Ex.
    + specialize (Huniq 0 x eq_refl Ex). discriminate Huniq.
    + apply (IH i t Hi). intros j u Hj Hu.
      specialize (Huniq (S j) u Hj Hu). now injection Huniq.
Qed.
End FilterFacts.

Section DebounceFacts.
Variable base_folder : Path.
Variable config : Config.

Lemma calls_for_app (P : string) (l1 l2 : list (string * string)) :
  calls_for P (l1 ++ l2) = (calls_for P l1 ++ calls_for P l2)%list.
Proof. apply List.filter_app. Qed.

Lemma calls_for_due (P : string) (T : Z) (ts : list Timer) :
  calls_for P (List.map args (List.filter (due T) ts))
  = List.map args (List.filter (fun t => due T t && for_path P (args t)) ts).
Proof.
  induction ts as [|t ts IH]; simpl; [reflexivity|].
  destruct (due T t); simpl; [|exact IH].
  unfold calls_for in *. simpl.
  destruct (for_path P (args t)); simpl; now rewrite IH.
Qed.

Lemma armed_notify (P kind : string) (s : Sys) :
  armed P kind (clock s + delay_seconds config)
        (core (notify config P kind s)).
Proof.
  unfold armed, notify, schedule_file_processing. cbn [core timers pending_files].
  set (timers1 := match pending_files (core s) !! P with
                  | Some i => alter cancel i (timers (core s))
                  | None => timers (core s)
                  end).
  exists (List.length timers1). split; [apply lookup_insert_eq|].
  now rewrite list_lookup_middle.
Qed.

(** What the timers of [P] contribute when time passes: the pending
    timer's call if it is due, and nothing otherwise. *)
Lemma elapse_calls_for (P kind : string) (tau dt : Z) (s : Sys) :
  live_registered (core s) ->
  armed P kind tau (core s) ->
  calls_for P (processed (elapse base_folder config dt s))
  = (calls_for P (processed s)
     ++ if (tau <=? clock s + dt)%Z then [(P, kind)] else [])%list.
Proof.
  intros Hinv (i & Hp & Ht).
  destruct (elapse_core base_folder config dt s) as (_ & _ & _ & -> & _).
  rewrite calls_for_app, calls_for_due. f_equal.
  rewrite (filter_unique _ _ i _ Ht).
  - unfold due, for_path. cbn [finished fire_at args fst negb andb].
    rewrite String.eqb_refl, andb_true_r.
    now destruct (tau <=? clock s + dt)%Z.
  - intros j u Hj Hu. apply andb_prop in Hu as [Hdue Hpath].
    unfold due in Hdue. apply andb_prop in Hdue as [Hf _].
    apply negb_true_iff in Hf.
    unfold for_path in Hpath. apply String.eqb_eq in Hpath.
    pose proof (Hinv j u Hj Hf) as Hreg. rewrite Hpath, Hp in Hreg.
    now injection Hreg.
Qed.

Lemma last_default_irrelevant (l : list string) : forall x d d' : string,
  List.last (x :: l) d = List.last (x :: l) d'.
Proof.
  induction l as [|y l IH]; intros x d d'; [reflexivity|].
  change (List.last (y :: l) d = List.last (y :: l) d'). apply IH.
Qed.

Lemma last_kind_cons (k0 k : string) (g : Z) (rest : list (Z * string)) :
  last_kind k0 ((g, k) :: rest) = last_kind k rest.
Proof.
  unfold last_kind.
  change (List.last (k :: rest.*2) k0 = List.last (k :: rest.*2) k).
  apply last_default_irrelevant.
Qed.

(** A burst followed by a quiet period adds exactly one call for the
    path, with the kind of the last notification. *)
Lemma burst_then_quiet (P : string) (more : list (Z * string)) :
  forall (s : Sys) (first_kind : string) (quiet : Z),
  live_registered (core s) ->
  Forall (fun gk => (0 <= fst gk < delay_seconds config)%Z) more ->
  (delay_seconds config <= quiet)%Z ->
  calls_for P (processed (elapse base_folder config quiet
                            (burst base_folder config P first_kind more s)))
  = (calls_for P (processed s) ++ [(P, last_kind first_kind more)])%list.
Proof.
  induction more as [|[g k] rest IH]; intros s k0 quiet Hinv Hgaps Hquiet.
  - cbn [burst].
    rewrite (elapse_calls_for P k0 (clock s + delay_seconds config)).
    + cbn [notify clock processed].
      destruct (Z.leb_spec (clock s + delay_seconds config) (clock s + quiet));
        [reflexivity|lia].
    + now apply live_registered_notify.
    + apply armed_notify.
  - cbn [burst]. inversion Hgaps as [|? ? Hg Hrest]; subst. cbn [fst] in Hg.
    rewrite IH; try assumption.
    + rewrite last_kind_cons. f_equal.
      rewrite (elapse_calls_for P k0 (clock s + delay_seconds config)).
      * cbn [notify clock processed].
        destruct (Z.leb_spec (clock s + delay_seconds config) (clock s + g));
          [lia|apply List.app_nil_r].
      * now apply live_registered_notify.
      * apply armed_notify.
    + apply live_registered_elapse. now apply live_registered_notify.
Qed.

End DebounceFacts.

(** C4. For every path and every burst of one or more notifications for
    it, each arriving less than the quiet period after the one before,
    the quiet period that follows brings exactly one call of
    [process_file] for the path, and that call carries the event kind of
    the last notification. *)
Theorem debounce_single_call
    (base_folder : Path) (config : Config) (s : Sys)
    (P first_kind : string) (more : list (Z * string)) (quiet : Z) :
  live_registered (core s) ->
  Forall (fun gk => (0 <= fst gk < delay_seconds config)%Z) more ->
  (delay_seconds config <= quiet)%Z ->
  calls_for P (processed (elapse base_folder config quiet
                            (burst base_folder config P first_kind more s)))
  = (calls_for P (processed s) ++ [(P, last_kind first_kind more)])%list.
Proof. apply burst_then_quiet. Qed.

Lemma debounce_single_call_witness :
  calls_for "in/invoice_2023.pdf"
    (processed
       (elapse ["Organized_Files"] (default_config "/home/u") 2
          (burst ["Organized_Files"] (default_config "/home/u")
             "in/invoice_2023.pdf" "created" [(1%Z, "created"); (1%Z, "moved")]
             idle_system)))
  = [("in/invoice_2023.pdf", "moved")].
Proof.
  apply (debounce_single_call ["Organized_Files"] (default_config "/home/u") idle_system
           "in/invoice_2023.pdf" "created" [(1%Z, "created"); (1%Z, "moved")] 2).
  - apply live_registered_new.
  - repeat constructor; simpl; lia.
  - simpl. lia.
Defined.

(** C1, as the code has it.  When the timer of a path fires, the call is
    made, but the pending map is left as it was: the path is still in it
    and is still counted by [get_status].  A later notification for the
    path does start a new cycle. *)
Theorem fired_path_stays_pending
    (base_folder : Path) (config : Config) (s : Sys) (P kind : string) (quiet : Z) :
  live_registered (core s) ->
  (delay_seconds config <= quiet)%Z ->
  let s' := elapse base_folder config quiet (notify config P kind s) in
  calls_for P (processed s') = (calls_for P (processed s) ++ [(P, kind)])%list
  /\ is_Some (pending_files (core s') !! P)
  /\ status_pending_files (get_status base_folder (core s')) > 0
  /\ forall (kind2 : string) (quiet2 : Z),
       (delay_seconds config <= quiet2)%Z ->
       calls_for P (processed (elapse base_folder config quiet2
                                 (notify config P kind2 s')))
       = (calls_for P (processed s') ++ [(P, kind2)])%list.
Proof.
  intros Hinv Hquiet s'.
  assert (Hinv' : live_registered (core s')).
  { apply live_registered_elapse. now apply live_registered_notify. }
  assert (Hp : pending_files (core s') !! P
               = Some (List.length
                         match pending_files (core s) !! P with
                         | Some i => alter cancel i (timers (core s))
                         | None => timers (core s)
                         end)).
  { subst s'. destruct (elapse_core base_folder config quiet (notify config P kind s))
      as (-> & _).
    apply lookup_insert_eq. }
  split; [|split; [|split]].
  - apply (burst_then_quiet base_folder config P [] s kind quiet Hinv);
      [constructor|assumption].
  - rewrite Hp. now eexists.
  - unfold get_status. cbn [status_pending_files].
    assert (Hne : size (pending_files (core s')) <> 0).
    { apply map_size_non_empty_iff. intros E. rewrite E in Hp.
      rewrite lookup_empty in Hp. discriminate Hp. }
    lia.
  - intros kind2 quiet2 Hq.
    apply (burst_then_quiet base_folder config P [] s' kind2 quiet2 Hinv');
      [constructor|assumption].
Qed.

Lemma fired_path_stays_pending_witness :
  let s' := elapse ["Organized_Files"] (default_config "/home/u") 5
              (notify (default_config "/home/u") "in/invoice_2023.pdf" "created"
                 idle_system) in
  processed s' = [("in/invoice_2023.pdf", "created")]
  /\ fs (world s') !! ["in"; "invoice_2023.pdf"] = None
  /\ is_Some (pending_files (core s') !! "in/invoice_2023.pdf")
  /\ status_pending_files (get_status ["Organized_Files"] (core s')) > 0.
Proof.
  destruct (fired_path_stays_pending ["Organized_Files"] (default_config "/home/u")
              idle_system "in/invoice_2023.pdf" "created" 5)
    as (_ & Hin & Hcount & _).
  - apply live_registered_new.
  - simpl. lia.
  - split; [vm_compute; reflexivity|].
    split; [vm_compute; reflexivity|].
    split; [exact Hin|exact Hcount].
Defined.

(** ** Stopping the watch session *)

Section StopFacts.
Variable base_folder : Path.
Variable config : Config.

Lemma cancel_idempotent (t : Timer) : cancel (cancel t) = cancel t.
Proof. reflexivity. Qed.

(** Cancelling the timers at the positions [l.*2]. *)
Lemma cancel_positions_lookup (l : list (string * nat)) (ts : list Timer)
    (j : nat) (t : Timer) :
  ts !! j = Some t ->
  foldr (fun '(_, i) acc => alter cancel i acc) ts l !! j
  = Some (if bool_decide (j ∈ l.*2) then cancel t else t).
Proof.
  intros Hj. induction l as [|[k i] l IH]; simpl; [exact Hj|].
  destruct (decide (i = j)) as [->|Hne].
  - rewrite list_lookup_alter_eq, IH. simpl.
    repeat case_bool_decide; try reflexivity; member_clash.
  - rewrite list_lookup_alter_ne, IH by assumption.
    repeat case_bool_decide; try reflexivity; member_clash.
Qed.

Lemma cancel_positions_length (l : list (string * nat)) (ts : list Timer) :
  List.length (foldr (fun '(_, i) acc => alter cancel i acc) ts l) = List.length ts.
Proof.
  induction l as [|[k i] l IH]; simpl; [reflexivity|].
  now rewrite length_alter.
Qed.

(** After [stop_watching] on a running session no timer is left with a
    clear flag. *)
Lemma stop_watching_all_finished (c : Core) :
  live_registered c -> is_running c = true ->
  Forall (fun t => finished t = true) (timers (stop_watching c)).
Proof.
  intros Hinv Hrun. unfold stop_watching. rewrite Hrun. cbn [negb timers].
  apply Forall_lookup. intros j t' Hj. unfold cancel_all in Hj.
  assert (Hlt : j < List.length (timers c)).
  { rewrite <- (cancel_positions_length (map_to_list (pending_files c))).
    apply lookup_lt_is_Some. exists t'. exact Hj. }
  apply lookup_lt_is_Some in Hlt as [t Ht].
  rewrite (cancel_positions_lookup _ _ _ _ Ht) in Hj. injection Hj as <-.
  destruct (finished t) eqn:Hf.
  - now destruct (bool_decide _).
  - rewrite bool_decide_eq_true_2; [reflexivity|].
    apply list_elem_of_fmap. exists (fst (args t), j). split; [reflexivity|].
    apply elem_of_map_to_list. now apply Hinv.
Qed.

(** Once every flag is set, the passing of time changes nothing but the
    clock. *)
Lemma elapse_all_finished (dt : Z) (s : Sys) :
  Forall (fun t => finished t = true) (timers (core s)) ->
  core (elapse base_folder config dt s) = core s
  /\ world (elapse base_folder config dt s) = world s
  /\ processed (elapse base_folder config dt s) = processed s.
Proof.
  intros Hall. unfold elapse.
  rewrite (run_due_all_finished base_folder config _ _ Hall).
  destruct (core s). repeat split; reflexivity.
Qed.

Lemma live_registered_stop (c : Core) :
  live_registered c -> is_running c = true -> live_registered (stop_watching c).
Proof.
  intros Hinv Hrun i t Ht Hf.
  pose proof (stop_watching_all_finished c Hinv Hrun) as Hall.
  rewrite Forall_lookup in Hall. rewrite (Hall i t Ht) in Hf. discriminate Hf.
Qed.

End StopFacts.

(** ** Every state the system reaches satisfies the invariant *)

Section Reachability.
Variable base_folder : Path.
Variable config : Config.

Lemma start_watching_keeps_timers (fsys : gmap Path Node) (c : Core) :
  pending_files (fst (start_watching config fsys c)) = pending_files c
  /\ timers (fst (start_watching config fsys c)) = timers c.
Proof.
  unfold start_watching. destruct (is_running c); [split; reflexivity|].
  destruct (watch_loop _ _ _ _) as [[o wp] [e|]]; [split; reflexivity|].
  destruct (bool_decide (wp = ∅)); [split; reflexivity|].
  destruct (observer_start o); split; reflexivity.
Qed.

Lemma reachable_live_registered (s : Sys) :
  reachable base_folder config s -> live_registered (core s).
Proof.
  induction 1 as [r w t|s p k _ IH|s dt _ IH|s _ IH|s _ IH|s w _ IH].
  - apply live_registered_new.
  - now apply live_registered_notify.
  - now apply live_registered_elapse.
  - intros i t. cbn [start core].
    destruct (start_watching_keeps_timers (fs (world s)) (core s)) as [-> ->].
    apply IH.
  - cbn [stop core]. destruct (is_running (core s)) eqn:Hrun.
    + now apply live_registered_stop.
    + unfold stop_watching. rewrite Hrun. exact IH.
  - exact IH.
Qed.

End Reachability.

(** C8. Stopping a running session cancels every pending timer and
    empties the pending map: afterwards no timer can fire, so however
    much time passes no file is processed or moved, and the status
    reports no pending file. *)
Theorem stop_cancels_every_timer
    (base_folder : Path) (config : Config) (s : Sys) :
  live_registered (core s) ->
  is_running (core s) = true ->
  let s1 := stop s in
  pending_files (core s1) = ∅
  /\ status_pending_files (get_status base_folder (core s1)) = 0
  /\ Forall (fun t => finished t = true) (timers (core s1))
  /\ world s1 = world s
  /\ forall dt : Z,
       core (elapse base_folder config dt s1) = core s1
       /\ world (elapse base_folder config dt s1) = world s
       /\ processed (elapse base_folder config dt s1) = processed s.
Proof.
  intros Hinv Hrun s1.
  assert (Hall : Forall (fun t => finished t = true) (timers (core s1))).
  { now apply stop_watching_all_finished. }
  assert (Hp : pending_files (core s1) = ∅).
  { subst s1. unfold stop, stop_watching. cbn [core]. now rewrite Hrun. }
  split; [exact Hp|]. split.
  { unfold get_status. cbn [status_pending_files]. rewrite Hp. apply map_size_empty. }
  split; [exact Hall|]. split; [reflexivity|].
  intros dt. exact (elapse_all_finished base_folder config dt s1 Hall).
Qed.

Lemma stop_cancels_every_timer_witness :
  is_running (core three_pending) = true
  /\ size (pending_files (core three_pending)) = 3
  /\ pending_files (core (stop three_pending)) = ∅
  /\ forall dt : Z,
       world (elapse ["Organized_Files"] inbox_config dt (stop three_pending))
       = three_files
       /\ processed (elapse ["Organized_Files"] inbox_config dt (stop three_pending)) = [].
Proof.
  destruct (stop_cancels_every_timer ["Organized_Files"] inbox_config three_pending)
    as (Hp & _ & _ & _ & Hlater).
  - apply (reachable_live_registered ["Organized_Files"] inbox_config).
    unfold three_pending. repeat constructor.
  - vm_compute. reflexivity.
  - split; [vm_compute; reflexivity|].
    split; [vm_compute; reflexivity|]. split; [exact Hp|].
    intros dt. destruct (Hlater dt) as (_ & Hw & Hl). split; [exact Hw|exact Hl].
Defined.

(** Without the stop the three files are moved when their timers fire. *)
Example three_pending_fire :
  let s' := elapse ["Organized_Files"] inbox_config 2 three_pending in
  processed s' = [("in/a.pdf", "created"); ("in/b.png", "moved"); ("in/c.txt", "created")]
  /\ fs (world s') !! ["Organized_Files"; "PDFs"; "a.pdf"] = Some (File 1)
  /\ fs (world s') !! ["in"; "a.pdf"] = None.
Proof. vm_compute. repeat split; reflexivity. Qed.

(** * Further properties of the classifier *)

Section SortFacts.

Lemma insert_sorted_perm (x : string) (l : list string) :
  insert_sorted x l ≡ₚ x :: l.
Proof.
  induction l as [|y l IH]; simpl; [reflexivity|].
  destruct (String.leb x y); [reflexivity|].
  rewrite IH. apply Permutation_swap.
Qed.

Lemma sorted_perm (l : list string) : sorted l ≡ₚ l.
Proof.
  induction l as [|x l IH]; simpl; [reflexivity|].
  unfold sorted in *. simpl. rewrite insert_sorted_perm. now rewrite IH.
Qed.

Lemma leb_false_flip (x y : string) : String.leb x y = false -> String.leb y x = true.
Proof. intros H. destruct (String.leb_total x y) as [E|E]; congruence. Qed.

Lemma leb_trans (x y z : string) :
  String.leb x y = true -> String.leb y z = true -> String.leb x z = true.
Proof.
  intros H1 H2. apply Is_true_true.
  apply (@transitivity _ String.le _ x y z); now apply Is_true_true.
Qed.

Lemma insert_sorted_sorted (x : string) (l : list string) :
  StronglySorted (fun a b => String.leb a b = true) l ->
  StronglySorted (fun a b => String.leb a b = true) (insert_sorted x l).
Proof.
  induction 1 as [|y l Hl IH Hy]; simpl; [repeat constructor|].
  destruct (String.leb x y) eqn:E.
  - constructor; [now constructor|]. constructor; [exact E|].
    eapply Forall_impl; [exact Hy|]. intros z Hz. exact (leb_trans _ _ _ E Hz).
  - constructor; [exact IH|].
    rewrite insert_sorted_perm. constructor; [now apply leb_false_flip|exact Hy].
Qed.

Lemma sorted_sorted (l : list string) :
  StronglySorted (fun a b => String.leb a b = true) (sorted l).
Proof.
  induction l as [|x l IH]; [constructor|].
  unfold sorted in *. simpl. now apply insert_sorted_sorted.
Qed.

End SortFacts.


(** X1. The tag list is in ascending order and holds no tag twice. *)
Theorem tags_sorted_without_duplicates (file_path : string) :
  StronglySorted (fun a b => String.leb a b = true) (get_file_tags file_path)
  /\ NoDup (get_file_tags file_path).
Proof.
  split; [apply sorted_sorted|].
  unfold get_file_tags. rewrite sorted_perm. apply NoDup_elements.
Qed.

Section TagFacts.









End TagFacts.






(** A month abbreviation inside a word counts. *)
Example summary_is_dated :
  get_file_tags "in/summary.txt" = ["dated"; "type_txt"].
Proof. vm_compute. reflexivity. Qed.

Lemma category_cases (file_path : string) :
  get_file_type file_path ∈ ["PDFs"; "Documents"; "Images"; "Other"]
  /\ (get_file_type file_path <> "Other" <->
      file_extension file_path ∈ known_extensions).
Proof.
  unfold get_file_type.
  change (lower (suffix (Path_of_string file_path))) with (file_extension file_path).
  generalize (file_extension file_path). intros ext.
  destruct (file_type_mapping !! ext) as [v|] eqn:E; simpl.
  - unfold file_type_mapping in E. apply elem_of_list_to_map_2 in E.
    repeat (apply elem_of_cons in E as [[= -> ->]|E]);
      try (inversion E; fail);
      (apply (bool_decide_unpack _); vm_compute; exact I).
  - split; [do 3 right; left|].
    split; [intros H; now destruct H|].
    intros H. unfold known_extensions in H.
    repeat (apply elem_of_cons in H as [->|H]);
      try (vm_compute in E; discriminate E).
    inversion H.
Qed.

(** X5. The category of a file is one of the four folders of the
    organization structure, and it is not ["Other"] exactly for the
    nineteen document, image and PDF extensions, compared without case. *)
Theorem category_of_extension (file_path : string) :
  get_file_type file_path ∈ ["PDFs"; "Documents"; "Images"; "Other"]
  /\ (get_file_type file_path <> "Other" <->
      file_extension file_path ∈ known_extensions).
Proof. apply category_cases. Qed.



(** A name with keywords of two rules goes to the folder of the earlier
    rule. *)
Example tax_report_goes_to_finance :
  get_destination_folder ["Organized_Files"] "in/Tax_Report.docx"
    (Some (get_file_tags "in/Tax_Report.docx")) = ["Organized_Files"; "Finance_Files"].
Proof. vm_compute. reflexivity. Qed.

(** * Further properties of the filter *)

Section FilterNameFacts.

Lemma rfind_append (c : ascii) (a b : string) :
  rfind c (a +:+ b)
  = match rfind c b with
    | Some j => Some (String.length a + j)
    | None => rfind c a
    end.
Proof.
  induction a as [|x a IH].
  - change ("" +:+ b) with b. now destruct (rfind c b).
  - rewrite append_cons. simpl. rewrite IH.
    now destruct (rfind c b).
Qed.

Lemma drop_append_length (a b : string) : drop (String.length a) (a +:+ b) = b.
Proof. induction a as [|x a IH]; [reflexivity|]. rewrite append_cons. exact IH. Qed.

Lemma drop_append_cons (a b : string) (c : ascii) :
  drop (S (String.length a)) (a +:+ String c b) = b.
Proof. induction a as [|x a IH]; [reflexivity|]. rewrite append_cons. exact IH. Qed.

(** The base name of a name inside a folder. *)
Lemma basename_in_folder (folder n : string) :
  rfind "/" n = None -> basename (folder +:+ "/" +:+ n) = n.
Proof.
  intros Hn. unfold basename. rewrite rfind_append.
  assert (H : rfind "/" ("/" +:+ n) = Some 0).
  { change ("/" +:+ n) with (String "/" n). simpl. now rewrite Hn. }
  rewrite H, Nat.add_0_r.
  change ("/" +:+ n) with (String "/" n). apply drop_append_cons.
Qed.

Lemma drop_all (s : string) : drop (String.length s) s = "".
Proof. induction s; simpl; auto. Qed.

Lemma prefix_empty (s : string) : String.prefix "" s = true.
Proof. now destruct s. Qed.

Lemma contains_empty (s : string) : contains "" s = true.
Proof. destruct s; simpl; now rewrite ?prefix_empty. Qed.

(** One matching pattern is enough. *)
Lemma ignore_loop_member (filename pattern : string) (patterns : list string) :
  pattern ∈ patterns ->
  ignore_loop filename [pattern] = true ->
  ignore_loop filename patterns = true.
Proof.
  intros Hin Hm. induction patterns as [|q patterns IH]; [inversion Hin|].
  cbn [ignore_loop] in *. apply elem_of_cons in Hin as [<-|Hin].
  - destruct (startswith pattern "*" && endswith filename (drop 1 pattern));
      [reflexivity|].
    destruct (endswith pattern "*" && startswith filename (take _ pattern));
      [reflexivity|].
    now destruct (contains pattern filename).
  - destruct (startswith q "*" && endswith filename (drop 1 q)); [reflexivity|].
    destruct (endswith q "*" && startswith filename (take _ q)); [reflexivity|].
    destruct (contains q filename); [reflexivity|]. now apply IH.
Qed.

End FilterNameFacts.


(** A file in a folder whose name matches a pattern is not ignored for
    that, and an upper-case spelling of a matching name is ignored. *)
Example ignore_filter_name_examples :
  should_ignore_file (default_config "/home/u") "/home/u/cache.tmp/report.pdf" = false
  /\ should_ignore_file (default_config "/home/u") "/home/u/Downloads/MOVIE.PART" = true.
Proof. vm_compute. split; reflexivity. Qed.

(** X8. An empty pattern, or the pattern of a lone star, matches every
    file: with such a pattern configured every file is ignored and
    processing any path leaves the world as it is. *)
Theorem universal_pattern_ignores_all
    (base_folder : Path) (config : Config) (w : World) (file_path event_type : string) :
  "" ∈ ignore_patterns config \/ "*" ∈ ignore_patterns config ->
  should_ignore_file config file_path = true
  /\ process_file base_folder config w file_path event_type = w.
Proof.
  intros H.
  assert (Hi : should_ignore_file config file_path = true).
  { unfold should_ignore_file. destruct H as [H|H].
    - apply (ignore_loop_member _ "" _ H). simpl.
      now rewrite contains_empty.
    - apply (ignore_loop_member _ "*" _ H). simpl.
      unfold endswith. simpl. rewrite Nat.sub_0_r, drop_all. reflexivity. }
  split; [exact Hi|].
  unfold process_file, should_process_file. now rewrite Hi.
Qed.

Lemma universal_pattern_ignores_all_witness :
  should_ignore_file (config_ignoring ["*.tmp"; ""]) "in/invoice_2023.pdf" = true
  /\ process_file ["Organized_Files"] (config_ignoring ["*.tmp"; ""])
       (invoice_world DbOk) "in/invoice_2023.pdf" "created" = invoice_world DbOk.
Proof.
  apply (universal_pattern_ignores_all ["Organized_Files"] (config_ignoring ["*.tmp"; ""])).
  left. simpl. right. left.
Defined.

(** X9. A path is processed exactly when its name is not ignored and it
    names an entry, a regular file or a directory, whose size is at most
    the configured number of mebibytes: a file of exactly that size is
    processed, and one byte more is not. *)
Theorem should_process_file_iff (config : Config) (w : World) (file_path : string) :
  should_process_file config w file_path = true <->
  should_ignore_file config file_path = false
  /\ file_path <> ""
  /\ exists node, OS.stat (fs w) (Path_of_string file_path) = Some node
       /\ (node_size node <= max_file_size_mb config * 1048576)%N.
Proof.
  unfold should_process_file, OS.getsize.
  destruct (should_ignore_file config file_path).
  { split; [discriminate|intros [H _]; discriminate H]. }
  destruct (String.eqb_spec file_path "") as [->|Hne].
  { split; [discriminate|intros (_ & H & _); now destruct H]. }
  destruct (OS.stat (fs w) (Path_of_string file_path)) as [node|].
  - replace (max_file_size_mb config * 1024 * 1024)%N
      with (max_file_size_mb config * 1048576)%N by lia.
    destruct (N.ltb_spec (max_file_size_mb config * 1048576) (node_size node)).
    + split; [discriminate|]. intros (_ & _ & n & [= <-] & Hle). lia.
    + split; [|reflexivity]. intros _. split; [reflexivity|].
      split; [assumption|]. exists node. split; [reflexivity|assumption].
  - split; [discriminate|]. intros (_ & _ & n & Hn & _). discriminate Hn.
Qed.

(** The size ceiling is inclusive. *)
Example size_ceiling_boundary :
  let world_with size := {|
    fs := {[ ["in"; "big.bin"] := File size ]};
    today := today (invoice_world DbOk); db := DbOk;
    audit_calls := []; audit_rows := [] |} in
  should_process_file (default_config "/home/u") (world_with 1048576000%N) "in/big.bin" = true
  /\ should_process_file (default_config "/home/u") (world_with 1048576001%N) "in/big.bin" = false.
Proof. vm_compute. split; reflexivity. Qed.

(** * Further properties of the relocator *)

Section MoveFacts.

(** Creating the directories down to a path leaves longer paths alone. *)
Lemma mkdir_from_deeper (todo : list string) :
  forall (fsys : gmap Path Node) (done : Path) (fs1 : gmap Path Node),
  OS.mkdir_from fsys done todo = Ok fs1 ->
  forall p : Path, List.length done + List.length todo < List.length p ->
  fs1 !! p = fsys !! p.
Proof.
  induction todo as [|c rest IH]; intros fsys done fs1; simpl.
  - now intros [= <-].
  - destruct (OS.stat fsys (done ++ [c])%list) as [[sz|sz]|] eqn:Es.
    + discriminate.
    + intros Hm p Hp. apply (IH _ _ _ Hm). rewrite List.length_app. simpl. lia.
    + intros Hm p Hp. rewrite (IH _ _ _ Hm) by (rewrite List.length_app; simpl; lia).
      apply lookup_insert_ne. intros <-. rewrite List.length_app in Hp. simpl in Hp. lia.
Qed.

Lemma parent_of_joinpath (folder : Path) (n : string) :
  folder <> [] -> parent (joinpath folder n) = folder.
Proof.
  intros Hf. unfold parent, joinpath.
  assert (H : (List.length (folder ++ [n]) =?
               (if anchored (folder ++ [n]) then 1 else 0))%nat = false).
  { apply Nat.eqb_neq. rewrite List.length_app.
    destruct folder as [|c folder]; [contradiction|]. simpl.
    destruct (is_anchor c); lia. }
  rewrite H. apply List.removelast_last.
Qed.

Lemma parent_shorter (p : Path) :
  OS.is_top p = false -> List.length (parent p) < List.length p.
Proof.
  intros Ht. unfold parent. unfold OS.is_top in Ht. rewrite Ht.
  destruct p as [|c p]; [simpl in Ht; discriminate|].
  rewrite (List.app_removelast_last "" (l := c :: p)) at 2 by discriminate.
  rewrite List.length_app. simpl. lia.
Qed.

Lemma exists_false_not_top (fsys : gmap Path Node) (p : Path) :
  OS.exists_ fsys p = false -> OS.is_top p = false /\ fsys !! p = None.
Proof.
  unfold OS.exists_, OS.stat. destruct (OS.is_top p); [discriminate|].
  destruct (fsys !! p); [discriminate|]. now split.
Qed.

(** The resolver stays in the folder of the desired path. *)
Lemma handle_filename_conflict_parent
    (taken : Path -> bool) (stamp : string) (folder : Path) (n : string) :
  folder <> [] ->
  parent (handle_filename_conflict taken stamp (joinpath folder n)) = folder.
Proof.
  intros Hf.
  destruct (handle_filename_conflict_cases taken stamp (joinpath folder n))
    as [[_ ->] | [(_ & _ & k & _ & ->) | [_ ->]]].
  - now apply parent_of_joinpath.
  - unfold numbered. rewrite (parent_of_joinpath folder n Hf).
    now apply parent_of_joinpath.
  - unfold numbered. rewrite (parent_of_joinpath folder n Hf).
    now apply parent_of_joinpath.
Qed.

(** What a successful move to a name that was free changes. *)
Lemma move_file_frame (base : Path) (w w' : World) (src : string)
    (tgs : option (list string)) (dp : string) (msg : Message) :
  move_file base w src tgs = (w', (true, dp, msg)) ->
  let source := Path_of_string src in
  let dst := handle_filename_conflict (OS.exists_ (fs w)) (strftime_stamp (today w))
               (joinpath (get_destination_folder base src tgs) (name source)) in
  dp = str_of_Path dst
  /\ (OS.exists_ (fs w) dst = false ->
      fs w' !! dst = fs w !! source
      /\ fs w' !! source = None
      /\ forall p n, p <> source -> fs w !! p = Some n -> fs w' !! p = Some n).
Proof.
  intros H source dst. unfold move_file in H. cbv zeta in H.
  fold source in H. fold dst in H.
  destruct (negb (OS.exists_ (fs w) source) || negb (OS.is_file (fs w) source)) eqn:Eg;
    [discriminate|].
  apply orb_false_elim in Eg as [_ Hfile]. apply negb_false_iff in Hfile.
  destruct (is_file_lookup _ _ Hfile) as [Htop [sz Hsz]].
  destruct (OS.mkdir_parents (fs w) (parent dst)) as [fs1|] eqn:Em; [|discriminate].
  destruct (OS.move fs1 source dst) as [fs2|] eqn:Emv; [|discriminate].
  injection H as <- <- _. split; [reflexivity|].
  intros Hfree. destruct (exists_false_not_top _ _ Hfree) as [Hdtop Hdnone].
  assert (Hd1 : fs1 !! dst = None).
  { rewrite (mkdir_from_deeper _ _ _ _ Em); [exact Hdnone|].
    simpl. now apply parent_shorter. }
  assert (Hsz1 : fs1 !! source = Some (File sz)).
  { eapply mkdir_from_keeps; [exact Em|exact Hsz]. }
  unfold OS.move in Emv.
  assert (Hnd : OS.is_dir fs1 dst = false).
  { unfold OS.is_dir. now rewrite stat_not_top, Hd1. }
  rewrite Hnd in Emv. simpl in Emv. rewrite Hsz1 in Emv.
  destruct (negb (OS.is_dir fs1 (parent dst))); [discriminate|].
  injection Emv as <-. simpl.
  assert (Hne : dst <> source) by congruence.
  split; [now rewrite lookup_insert_eq, Hsz|].
  split; [now rewrite lookup_insert_ne, lookup_delete_eq|].
  intros p n Hp Hn.
  assert (Hn1 : fs1 !! p = Some n) by (eapply mkdir_from_keeps; [exact Em|exact Hn]).
  rewrite lookup_insert_ne by congruence.
  now rewrite lookup_delete_ne.
Qed.

Lemma conflict_loop_first (taken : Path -> bool) (d : Path) (n counter : nat) :
  taken (numbered d (pretty counter)) = false ->
  conflict_loop taken d (S n) counter = Some (numbered d (pretty counter)).
Proof. intros H. cbn [conflict_loop]. now rewrite H. Qed.

(** A path that names nothing is not processed. *)
Lemma missing_not_processed (config : Config) (w : World) (file_path : string) :
  OS.path_exists (fs w) file_path = false ->
  should_process_file config w file_path = false.
Proof.
  intros H. unfold should_process_file, OS.getsize.
  destruct (should_ignore_file config file_path); [reflexivity|].
  unfold OS.path_exists, OS.exists_ in H.
  destruct (String.eqb file_path ""); [reflexivity|]. simpl in H.
  now destruct (OS.stat (fs w) (Path_of_string file_path)).
Qed.

End MoveFacts.

(** X10. A move that fails returns the empty destination string and loses
    nothing: every entry of the file system is still there with its size,
    and the audit store is untouched. *)
Theorem failed_move_keeps_entries (base_folder : Path) (w w' : World)
    (source_path : string) (tgs : option (list string)) (dp : string) (msg : Message) :
  move_file base_folder w source_path tgs = (w', (false, dp, msg)) ->
  dp = ""
  /\ (forall p n, fs w !! p = Some n -> fs w' !! p = Some n)
  /\ audit_calls w' = audit_calls w /\ audit_rows w' = audit_rows w.
Proof.
  unfold move_file.
  set (dst := handle_filename_conflict _ _ _).
  destruct (negb _ || negb _).
  { intros [= <- <- _]. repeat split; auto. }
  destruct (OS.mkdir_parents (fs w) (parent dst)) as [fs1|] eqn:Em.
  - destruct (OS.move fs1 _ dst); [discriminate|].
    intros [= <- <- _]. repeat split; try reflexivity.
    intros p n Hp. simpl. eapply mkdir_from_keeps; [exact Em|exact Hp].
  - intros [= <- <- _]. repeat split; auto.
Qed.

Lemma failed_move_keeps_entries_witness :
  move_file ["Organized_Files"] blocked_world "in/invoice_2023.pdf" None
  = (blocked_world, (false, "", ErrorMoving NotADirectoryError))
  /\ fs blocked_world !! ["in"; "invoice_2023.pdf"] = Some (File 10).
Proof.
  assert (E : move_file ["Organized_Files"] blocked_world "in/invoice_2023.pdf" None
              = (blocked_world, (false, "", ErrorMoving NotADirectoryError)))
    by (vm_compute; reflexivity).
  split; [exact E|].
  destruct (failed_move_keeps_entries _ _ _ _ _ _ _ E) as (_ & Hkeep & _).
  apply Hkeep. vm_compute. reflexivity.
Defined.

(** X11. A successful move returns the path the resolver chose, inside
    the destination folder.  When that path was free, the file arrives
    there with its size, the source path is emptied, and every other
    entry of the file system is left as it was. *)
Theorem successful_move_changes_two_paths (base_folder : Path) (w w' : World)
    (source_path : string) (tgs : option (list string)) (dp : string) (msg : Message) :
  move_file base_folder w source_path tgs = (w', (true, dp, msg)) ->
  let source := Path_of_string source_path in
  let dest_folder := get_destination_folder base_folder source_path tgs in
  let dst := handle_filename_conflict (OS.exists_ (fs w)) (strftime_stamp (today w))
               (joinpath dest_folder (name source)) in
  dp = str_of_Path dst
  /\ parent dst = dest_folder
  /\ (OS.exists_ (fs w) dst = false ->
      fs w' !! dst = fs w !! source
      /\ fs w' !! source = None
      /\ forall p n, p <> source -> fs w !! p = Some n -> fs w' !! p = Some n).
Proof.
  intros H source dest_folder dst.
  destruct (move_file_frame _ _ _ _ _ _ _ H) as [Hdp Hframe].
  split; [exact Hdp|]. split; [|exact Hframe].
  subst dst dest_folder.
  destruct (get_destination_folder_shape base_folder source_path tgs) as [X ->].
  apply handle_filename_conflict_parent.
  intros E. now apply List.app_eq_nil in E as [_ E].
Qed.

Lemma successful_move_changes_two_paths_witness :
  exists w',
    move_file ["Organized_Files"] (invoice_world DbOk) "in/invoice_2023.pdf"
      (Some ["finance"])
    = (w', (true, "Organized_Files/Finance_Files/invoice_2023.pdf",
            MovedTo "invoice_2023.pdf"))
    /\ fs w' !! ["Organized_Files"; "Finance_Files"; "invoice_2023.pdf"] = Some (File 10)
    /\ fs w' !! ["in"; "invoice_2023.pdf"] = None
    /\ fs w' !! ["in"] = Some (Dir 4096).
Proof.
  destruct (move_file ["Organized_Files"] (invoice_world DbOk) "in/invoice_2023.pdf"
              (Some ["finance"])) as [w' r] eqn:E.
  assert (Hr : r = (true, "Organized_Files/Finance_Files/invoice_2023.pdf",
                    MovedTo "invoice_2023.pdf")).
  { apply (f_equal snd) in E. vm_compute in E. now rewrite <- E. }
  subst r. exists w'. split; [reflexivity|].
  destruct (successful_move_changes_two_paths _ _ _ _ _ _ _ E) as (_ & _ & Hframe).
  destruct Hframe as (Hdst & Hsrc & Hrest); [vm_compute; reflexivity|].
  vm_compute in Hdst. vm_compute in Hsrc.
  split; [exact Hdst|]. split; [exact Hsrc|].
  apply Hrest; [discriminate|vm_compute; reflexivity].
Defined.

(** X12. After a path has been relocated, processing the same path again
    does nothing: the relocation happens at most once until a new file
    appears under that path. *)
Theorem relocated_path_processed_once
    (base_folder : Path) (config : Config) (w : World)
    (file_path event_type event_type' : string) :
  relocates base_folder config w file_path = true ->
  let w1 := process_file base_folder config w file_path event_type in
  process_file base_folder config w1 file_path event_type' = w1.
Proof.
  intros Hrel w1.
  assert (Hgone : OS.path_exists (fs w1) file_path = false).
  { subst w1. unfold relocates in Hrel. unfold process_file.
    apply andb_prop in Hrel as [Hproc Hsucc]. rewrite Hproc. cbn [negb].
    destruct (move_file base_folder w file_path (Some (get_file_tags file_path)))
      as [w2 [[success dp] msg]] eqn:Em.
    cbn [fst snd] in Hsucc. subst success.
    rewrite log_file_movement_fs.
    now destruct (move_file_success _ _ _ _ _ _ _ Em) as (Hgone & _). }
  unfold process_file at 1.
  now rewrite (missing_not_processed config w1 file_path Hgone).
Qed.

Lemma relocated_path_processed_once_witness :
  let w1 := process_file ["Organized_Files"] (default_config "/home/u")
              (invoice_world DbOk) "in/invoice_2023.pdf" "created" in
  process_file ["Organized_Files"] (default_config "/home/u") w1
    "in/invoice_2023.pdf" "moved" = w1.
Proof.
  apply (relocated_path_processed_once ["Organized_Files"] (default_config "/home/u")
           (invoice_world DbOk) "in/invoice_2023.pdf" "created" "moved").
  vm_compute. reflexivity.
Defined.

(** X13. A file that already sits in its destination folder is not left
    alone when it is processed: its own name is taken, by itself, so it is
    renamed to [stem_1] with its suffix when that name is free. *)
Theorem organised_file_is_renamed
    (base_folder : Path) (config : Config) (w : World) (file_path event_type : string) :
  relocates base_folder config w file_path = true ->
  let source := Path_of_string file_path in
  source = joinpath (get_destination_folder base_folder file_path
                       (Some (get_file_tags file_path))) (name source) ->
  OS.exists_ (fs w) (numbered source "1") = false ->
  let w' := process_file base_folder config w file_path event_type in
  fs w' !! numbered source "1" = fs w !! source
  /\ fs w' !! source = None.
Proof.
  intros Hrel source Hplace Hfree w'.
  subst w'. unfold relocates in Hrel. unfold process_file.
  apply andb_prop in Hrel as [Hproc Hsucc]. rewrite Hproc. cbn [negb].
  destruct (move_file base_folder w file_path (Some (get_file_tags file_path)))
    as [w2 [[success dp] msg]] eqn:Em.
  cbn [fst snd] in Hsucc. subst success.
  rewrite log_file_movement_fs.
  destruct (move_file_frame _ _ _ _ _ _ _ Em) as [_ Hframe].
  fold source in Hframe. rewrite <- Hplace in Hframe.
  assert (Hex : OS.exists_ (fs w) source = true).
  { destruct (move_file_success _ _ _ _ _ _ _ Em) as (_ & (p & sz & Hs & _) & _).
    fold source in Hs. unfold OS.exists_, OS.stat.
    destruct (OS.is_top source); [reflexivity|]. now rewrite Hs. }
  assert (Hdst : handle_filename_conflict (OS.exists_ (fs w))
                   (strftime_stamp (today w)) source = numbered source "1").
  { unfold handle_filename_conflict. rewrite Hex. cbn [negb].
    change 1000 with (S 999).
    now rewrite (conflict_loop_first _ _ 999 1 Hfree). }
  rewrite Hdst in Hframe.
  destruct (Hframe Hfree) as (H1 & H2 & _). now split.
Qed.

Lemma organised_file_is_renamed_witness :
  let w := {| fs := list_to_map [(["Organized_Files"], Dir 4096);
                                 (["Organized_Files"; "PDFs"], Dir 4096);
                                 (["Organized_Files"; "PDFs"; "paper.pdf"], File 7)];
              today := today (invoice_world DbOk); db := DbOk;
              audit_calls := []; audit_rows := [] |} in
  let w' := process_file ["Organized_Files"] (default_config "/home/u") w
              "Organized_Files/PDFs/paper.pdf" "created" in
  fs w' !! ["Organized_Files"; "PDFs"; "paper_1.pdf"] = Some (File 7)
  /\ fs w' !! ["Organized_Files"; "PDFs"; "paper.pdf"] = None.
Proof.
  intros w w'.
  destruct (organised_file_is_renamed ["Organized_Files"] (default_config "/home/u") w
              "Organized_Files/PDFs/paper.pdf" "created") as [H1 H2].
  - vm_compute. reflexivity.
  - vm_compute. reflexivity.
  - vm_compute. reflexivity.
  - split; [exact H1|exact H2].
Defined.

(** * Further properties of the coordinator and the watch session *)

Section CoordinatorFacts.
Variable base_folder : Path.
Variable config : Config.

Lemma pending_points_home_schedule (now : Z) (c : Core) (file_path event_type : string) :
  pending_points_home c ->
  pending_points_home (schedule_file_processing config now c file_path event_type).
Proof.
  intros Hinv P i. unfold schedule_file_processing. cbn [timers pending_files].
  set (timers1 := match pending_files c !! file_path with
                  | Some i => alter cancel i (timers c)
                  | None => timers c
                  end).
  assert (Hold : forall j t, timers c !! j = Some t ->
                 exists t', timers1 !! j = Some t' /\ fst (args t') = fst (args t)).
  { intros j t Hj. subst timers1. destruct (pending_files c !! file_path) as [k|].
    - destruct (decide (k = j)) as [->|Hne].
      + exists (cancel t). now rewrite list_lookup_alter_eq, Hj.
      + exists t. now rewrite list_lookup_alter_ne.
    - now exists t. }
  destruct (decide (file_path = P)) as [->|Hne].
  - rewrite lookup_insert_eq. intros [= <-].
    eexists. split; [apply list_lookup_middle; reflexivity|reflexivity].
  - rewrite lookup_insert_ne by assumption. intros Hp.
    destruct (Hinv P i Hp) as (t & Ht & Hpath).
    destruct (Hold i t Ht) as (t' & Ht' & Hpath').
    exists t'. split; [|congruence].
    rewrite lookup_app_l; [exact Ht'|]. apply lookup_lt_is_Some. exists t'. exact Ht'.
Qed.

Lemma pending_points_home_elapse (dt : Z) (s : Sys) :
  pending_points_home (core s) ->
  pending_points_home (core (elapse base_folder config dt s)).
Proof.
  intros Hinv P i.
  destruct (elapse_core base_folder config dt s) as (-> & _ & -> & _).
  intros Hp. destruct (Hinv P i Hp) as (t & Ht & Hpath).
  exists (fire (clock s + dt) t). rewrite list_lookup_fmap, Ht. split; [reflexivity|].
  unfold fire. now destruct (due _ t).
Qed.

Lemma reachable_pending_points_home (s : Sys) :
  reachable base_folder config s -> pending_points_home (core s).
Proof.
  induction 1 as [r w t|s p k _ IH|s dt _ IH|s _ IH|s _ IH|s w _ IH].
  - intros P i H. simpl in H. rewrite lookup_empty in H. discriminate H.
  - now apply pending_points_home_schedule.
  - now apply pending_points_home_elapse.
  - intros P i. cbn [start core].
    destruct (start_watching_keeps_timers config (fs (world s)) (core s)) as [-> ->].
    apply IH.
  - cbn [stop core]. unfold stop_watching. destruct (is_running (core s)); [|exact IH].
    intros P i H. simpl in H. rewrite lookup_empty in H. discriminate H.
  - exact IH.
Qed.

Lemma live_timers_at_most_one (P : string) (c : Core) :
  live_registered c -> List.length (live_timers P c) <= 1.
Proof.
  intros Hinv. unfold live_timers.
  assert (Huniq : forall i, pending_files c !! P = Some i ->
            forall j u, timers c !! j = Some u ->
              negb (finished u) && String.eqb (fst (args u)) P = true -> j = i).
  { intros i Hp j u Hj Hu. apply andb_prop in Hu as [Hf Hpath].
    apply negb_true_iff in Hf. apply String.eqb_eq in Hpath.
    pose proof (Hinv j u Hj Hf) as Hreg. rewrite Hpath, Hp in Hreg. now injection Hreg. }
  destruct (pending_files c !! P) as [i|] eqn:Hp.
  - destruct (timers c !! i) as [t|] eqn:Ht.
    + rewrite (filter_unique _ _ i t Ht (Huniq i eq_refl)).
      destruct (negb _ && _); simpl; lia.
    + rewrite filter_none; [simpl; lia|].
      intros j u Hj. destruct (negb (finished u) && _) eqn:E; [|reflexivity].
      rewrite (Huniq i eq_refl j u Hj E) in Hj. congruence.
  - rewrite filter_none; [simpl; lia|].
    intros j u Hj. destruct (negb (finished u) && _) eqn:E; [|reflexivity].
    apply andb_prop in E as [Hf Hpath].
    apply negb_true_iff in Hf. apply String.eqb_eq in Hpath.
    pose proof (Hinv j u Hj Hf) as Hreg. rewrite Hpath, Hp in Hreg. discriminate Hreg.
Qed.

(** A timer that is not yet due stays armed while time passes. *)
Lemma armed_elapse_early (P kind : string) (tau dt : Z) (s : Sys) :
  armed P kind tau (core s) -> (clock s + dt < tau)%Z ->
  armed P kind tau (core (elapse base_folder config dt s)).
Proof.
  intros (i & Hp & Ht) Hlt. exists i.
  destruct (elapse_core base_folder config dt s) as (-> & _ & -> & _).
  split; [exact Hp|]. rewrite list_lookup_fmap, Ht. simpl. f_equal.
  unfold fire, due. cbn [finished fire_at negb andb].
  destruct (Z.leb_spec tau (clock s + dt)); [lia|reflexivity].
Qed.

(** A notification for another path leaves the timer armed. *)
Lemma armed_schedule_other (P Q kind kind' : string) (tau now : Z) (c : Core) :
  pending_points_home c -> P <> Q ->
  armed P kind tau c ->
  armed P kind tau (schedule_file_processing config now c Q kind').
Proof.
  intros Hhome Hne (i & Hp & Ht). exists i.
  unfold schedule_file_processing. cbn [timers pending_files].
  rewrite lookup_insert_ne by congruence. split; [exact Hp|].
  destruct (pending_files c !! Q) as [k|] eqn:Hq.
  - destruct (Hhome Q k Hq) as (u & Hu & Hpath).
    assert (Hki : k <> i).
    { intros ->. rewrite Ht in Hu. injection Hu as <-. simpl in Hpath. congruence. }
    rewrite lookup_app_l.
    + now rewrite list_lookup_alter_ne.
    + rewrite length_alter. apply lookup_lt_is_Some. eexists. exact Ht.
  - rewrite lookup_app_l; [exact Ht|]. apply lookup_lt_is_Some. eexists. exact Ht.
Qed.

End CoordinatorFacts.

(** X14. In every state the system reaches, a path has at most one timer
    that can still fire. *)
Theorem one_live_timer_per_path
    (base_folder : Path) (config : Config) (s : Sys) (P : string) :
  reachable base_folder config s ->
  List.length (live_timers P (core s)) <= 1.
Proof.
  intros H. apply live_timers_at_most_one.
  exact (reachable_live_registered base_folder config s H).
Qed.

Lemma one_live_timer_per_path_witness :
  List.length (timers (core (burst ["Organized_Files"] inbox_config "in/a.pdf" "created"
                               [(1%Z, "created"); (1%Z, "moved")] idle_system))) = 3
  /\ List.length
       (live_timers "in/a.pdf"
          (core (burst ["Organized_Files"] inbox_config "in/a.pdf" "created"
                   [(1%Z, "created"); (1%Z, "moved")] idle_system))) <= 1.
Proof.
  split; [vm_compute; reflexivity|].
  apply (one_live_timer_per_path ["Organized_Files"] inbox_config).
  unfold burst, idle_system. repeat constructor.
Defined.

(** X15. A rename during the quiet period does not cancel the timer of
    the old path: the created event for the old path and the moved event
    for the new path each lead to one call of [process_file], the first
    for the old path with kind [created], the second for the new path
    with kind [moved]. *)
Theorem rename_keeps_old_timer
    (base_folder : Path) (config : Config) (s : Sys)
    (old_path new_path : string) (gap quiet : Z) :
  reachable base_folder config s ->
  old_path <> new_path ->
  (0 <= gap < delay_seconds config)%Z ->
  (delay_seconds config <= quiet)%Z ->
  let s2 := elapse base_folder config gap
              (deliver config (EvCreated old_path false) s) in
  let s4 := elapse base_folder config quiet
              (deliver config (EvMoved old_path new_path false) s2) in
  calls_for old_path (processed s4)
  = (calls_for old_path (processed s) ++ [(old_path, "created")])%list
  /\ calls_for new_path (processed s4)
     = (calls_for new_path (processed s2) ++ [(new_path, "moved")])%list.
Proof.
  intros Hreach Hne Hgap Hquiet s2 s4.
  set (s1 := deliver config (EvCreated old_path false) s) in *.
  set (s3 := deliver config (EvMoved old_path new_path false) s2) in *.
  assert (Hr1 : reachable base_folder config s1) by (now apply reach_notify).
  assert (Hr2 : reachable base_folder config s2) by (now apply reach_elapse).
  assert (Hr3 : reachable base_folder config s3) by (now apply reach_notify).
  assert (Ha1 : armed old_path "created" (clock s + delay_seconds config) (core s1))
    by apply armed_notify.
  assert (Hc2 : clock s2 = (clock s + gap)%Z).
  { subst s2. now destruct (elapse_core base_folder config gap s1) as (_ & _ & _ & _ & ->). }
  assert (Ha2 : armed old_path "created" (clock s + delay_seconds config) (core s2)).
  { apply armed_elapse_early; [exact Ha1|]. change (clock s1) with (clock s). lia. }
  assert (Ha3 : armed old_path "created" (clock s + delay_seconds config) (core s3)).
  { apply armed_schedule_other; [|assumption|exact Ha2].
    exact (reachable_pending_points_home base_folder config s2 Hr2). }
  split.
  - subst s4.
    rewrite (elapse_calls_for base_folder config old_path "created"
               (clock s + delay_seconds config) quiet s3
               (reachable_live_registered _ _ _ Hr3) Ha3).
    change (processed s3) with (processed s2). change (clock s3) with (clock s2).
    rewrite Hc2.
    destruct (Z.leb_spec (clock s + delay_seconds config) (clock s + gap + quiet)); [|lia].
    f_equal. subst s2.
    rewrite (elapse_calls_for base_folder config old_path "created"
               (clock s + delay_seconds config) gap s1
               (reachable_live_registered _ _ _ Hr1) Ha1).
    change (processed s1) with (processed s). change (clock s1) with (clock s).
    destruct (Z.leb_spec (clock s + delay_seconds config) (clock s + gap)); [lia|].
    apply List.app_nil_r.
  - subst s4.
    rewrite (elapse_calls_for base_folder config new_path "moved"
               (clock s2 + delay_seconds config) quiet s3
               (reachable_live_registered _ _ _ Hr3) (armed_notify config new_path "moved" s2)).
    change (processed s3) with (processed s2). change (clock s3) with (clock s2).
    destruct (Z.leb_spec (clock s2 + delay_seconds config) (clock s2 + quiet)); [|lia].
    reflexivity.
Qed.

Lemma rename_keeps_old_timer_witness :
  let s4 :=
    elapse ["Organized_Files"] inbox_config 2
      (deliver inbox_config (EvMoved "in/a.part" "in/a.pdf" false)
         (elapse ["Organized_Files"] inbox_config 1
            (deliver inbox_config (EvCreated "in/a.part" false)
               {| core := new_core []; world := three_files;
                  clock := 0; processed := [] |}))) in
  calls_for "in/a.part" (processed s4) = [("in/a.part", "created")]
  /\ calls_for "in/a.pdf" (processed s4) = [("in/a.pdf", "moved")].
Proof.
  destruct (rename_keeps_old_timer ["Organized_Files"] inbox_config
              {| core := new_core []; world := three_files; clock := 0; processed := [] |}
              "in/a.part" "in/a.pdf" 1 2) as [H1 H2].
  - constructor.
  - discriminate.
  - simpl. lia.
  - simpl. lia.
  - split; [exact H1|]. rewrite H2. vm_compute. reflexivity.
Defined.

(** Events for directories, and modified or deleted events, schedule
    nothing. *)
Example handler_ignores_other_events (config : Config) (now : Z) (c : Core) (p q : string) :
  dispatch config now c (EvCreated p true) = c
  /\ dispatch config now c (EvMoved p q true) = c
  /\ (forall d, dispatch config now c (EvModified p d) = c)
  /\ (forall d, dispatch config now c (EvDeleted p d) = c).
Proof. repeat split. Qed.

Section SessionFacts.
Variable config : Config.
Variable fsys : gmap Path Node.

Lemma observer_schedule_started (o o' : Observer) (folder : string) (watch : ObservedWatch) :
  observer_schedule o folder = Ok (o', watch) ->
  started o' = started o /\ refused o' = refused o
  /\ watch = {| watch_path := folder; watch_recursive := true |}.
Proof.
  unfold observer_schedule. destruct (bool_decide (folder ∈ refused o)); [discriminate|].
  intros [= <- <-]. repeat split.
Qed.

(** What the registration loop leaves in the registry, whether it ends
    normally or with an exception. *)
Lemma watch_loop_registry (folders : list string) :
  forall (o : Observer) (wp : gmap string ObservedWatch)
         (o' : Observer) (wp' : gmap string ObservedWatch) (exc : option PyExc),
  watch_loop fsys folders o wp = (o', wp', exc) ->
  started o' = started o
  /\ forall folder watch, wp' !! folder = Some watch ->
       wp !! folder = Some watch
       \/ (folder ∈ folders /\ OS.path_exists fsys folder = true
           /\ watch = {| watch_path := folder; watch_recursive := true |}).
Proof.
  induction folders as [|f rest IH]; intros o wp o' wp' exc; simpl.
  - intros [= <- <- _]. split; [reflexivity|]. intros folder watch H. now left.
  - destruct (OS.path_exists fsys f) eqn:Ex.
    + destruct (observer_schedule o f) as [[o1 watch1]|e] eqn:Es.
      * destruct (observer_schedule_started _ _ _ _ Es) as (Hs & _ & ->).
        intros H. destruct (IH _ _ _ _ _ H) as [Hs' Hreg].
        split; [congruence|]. intros folder watch Hw.
        destruct (Hreg folder watch Hw) as [Hold|(Hin & Hex & ->)].
        -- destruct (decide (f = folder)) as [->|Hne].
           ++ rewrite lookup_insert_eq in Hold. injection Hold as <-.
              right. split; [left|]. now split.
           ++ rewrite lookup_insert_ne in Hold by assumption. now left.
        -- right. split; [now right|]. now split.
      * intros [= <- <- _]. split; [reflexivity|]. intros folder watch H. now left.
    + intros H. destruct (IH _ _ _ _ _ H) as [Hs' Hreg].
      split; [exact Hs'|]. intros folder watch Hw.
      destruct (Hreg folder watch Hw) as [Hold|(Hin & Hex & ->)]; [now left|].
      right. split; [now right|]. now split.
Qed.

(** A notification source that has been started makes every later start
    fail. *)
Lemma started_source_cannot_start (c : Core) :
  started (observer c) = true -> snd (start_watching config fsys c) = false.
Proof.
  intros Hst. unfold start_watching. destruct (is_running c); [reflexivity|].
  destruct (watch_loop fsys (watched_folders config) (observer c) (watched_paths c))
    as [[o wp] exc] eqn:El.
  destruct (watch_loop_registry _ _ _ _ _ _ El) as [Hs _].
  destruct exc; [reflexivity|].
  destruct (bool_decide (wp = ∅)); [reflexivity|].
  unfold observer_start. now rewrite Hs, Hst.
Qed.

Lemma start_watching_true_started (c : Core) :
  snd (start_watching config fsys c) = true ->
  started (observer (fst (start_watching config fsys c))) = true
  /\ is_running (fst (start_watching config fsys c)) = true.
Proof.
  unfold start_watching. destruct (is_running c); [discriminate|].
  destruct (watch_loop fsys (watched_folders config) (observer c) (watched_paths c))
    as [[o wp] exc].
  destruct exc; [discriminate|].
  destruct (bool_decide (wp = ∅)); [discriminate|].
  unfold observer_start. destruct (started o); [discriminate|].
  intros _. split; reflexivity.
Qed.

End SessionFacts.

(** X16. A session that has been started cannot be started a second
    time after it was stopped: the notification source is a thread, a
    thread starts only once, and [start_watching] answers false. *)
Theorem stopped_session_cannot_restart
    (config : Config) (fsys fsys' : gmap Path Node) (c : Core) :
  snd (start_watching config fsys c) = true ->
  let stopped_core := stop_watching (fst (start_watching config fsys c)) in
  is_running stopped_core = false
  /\ snd (start_watching config fsys' stopped_core) = false.
Proof.
  intros H stopped_core.
  destruct (start_watching_true_started config fsys c H) as [Hst Hrun].
  subst stopped_core. unfold stop_watching at 1 2. rewrite Hrun. cbn [negb].
  split; [reflexivity|].
  apply started_source_cannot_start. exact Hst.
Qed.

Lemma stopped_session_cannot_restart_witness :
  snd (start_watching (default_config "/home/u") downloads_fs (new_core [])) = true
  /\ snd (start_watching (default_config "/home/u") downloads_fs
            (stop_watching
               (fst (start_watching (default_config "/home/u") downloads_fs (new_core [])))))
     = false.
Proof.
  assert (H : snd (start_watching (default_config "/home/u") downloads_fs (new_core [])) = true)
    by (vm_compute; reflexivity).
  split; [exact H|].
  exact (proj2 (stopped_session_cannot_restart (default_config "/home/u")
                  downloads_fs downloads_fs (new_core []) H)).
Defined.

(** X17. After [start_watching] on a session that is not running, every
    newly registered root is a configured folder that exists, watched
    recursively, so a folder that does not exist is never registered; and
    when the notification source refuses no folder, every configured
    folder that exists is registered. *)
Theorem registered_roots_exist
    (config : Config) (fsys : gmap Path Node) (c : Core) :
  is_running c = false ->
  let c' := fst (start_watching config fsys c) in
  (forall folder watch, watched_paths c' !! folder = Some watch ->
     watched_paths c !! folder = Some watch
     \/ (folder ∈ watched_folders config /\ OS.path_exists fsys folder = true
         /\ watch = {| watch_path := folder; watch_recursive := true |}))
  /\ ((forall folder, folder ∈ watched_folders config -> folder ∉ refused (observer c)) ->
      forall folder, folder ∈ watched_folders config ->
        OS.path_exists fsys folder = true ->
        is_Some (watched_paths c' !! folder)).
Proof.
  intros Hrun c'. subst c'. unfold start_watching. rewrite Hrun.
  destruct (watch_loop fsys (watched_folders config) (observer c) (watched_paths c))
    as [[o wp] exc] eqn:El.
  destruct (watch_loop_registry _ _ _ _ _ _ _ El) as [_ Hreg].
  assert (Hwp : forall c1 : Core * bool,
            c1 = (match exc with
                  | Some _ => ({| observer := o; watched_paths := wp; is_running := false;
                                  pending_files := pending_files c; timers := timers c |}, false)
                  | None =>
                      if bool_decide (wp = ∅)
                      then ({| observer := o; watched_paths := wp; is_running := false;
                               pending_files := pending_files c; timers := timers c |}, false)
                      else match observer_start o with
                           | Raise _ =>
                               ({| observer := o; watched_paths := wp; is_running := false;
                                   pending_files := pending_files c; timers := timers c |}, false)
                           | Ok o' =>
                               ({| observer := o'; watched_paths := wp; is_running := true;
                                   pending_files := pending_files c; timers := timers c |}, true)
                           end
                  end) ->
            watched_paths (fst c1) = wp).
  { intros c1 ->. destruct exc; [reflexivity|].
    destruct (bool_decide (wp = ∅)); [reflexivity|].
    now destruct (observer_start o). }
  rewrite (Hwp _ eq_refl). split; [exact Hreg|].
  intros Hacc folder Hin Hex.
  clear Hwp Hreg. revert El. generalize (watched_paths c) (observer c) Hacc.
  clear Hacc Hrun. revert Hin. generalize (watched_folders config).
  intros folders. revert wp o exc.
  induction folders as [|f rest IH]; intros wp o exc Hin wp0 o0 Hacc; [inversion Hin|].
  simpl. destruct (decide (f = folder)) as [->|Hne].
  - rewrite Hex.
    destruct (observer_schedule_accepts o0 folder) as (o1 & watch & -> & Hs & Hr);
      [apply Hacc; left|].
    intros El.
    assert (Hkeep : forall folders' o2 wp2 o3 wp3 e3,
              watch_loop fsys folders' o2 wp2 = (o3, wp3, e3) ->
              is_Some (wp2 !! folder) -> is_Some (wp3 !! folder)).
    { clear. induction folders' as [|g r IHr]; intros o2 wp2 o3 wp3 e3; simpl.
      - now intros [= <- <- _].
      - destruct (OS.path_exists fsys g).
        + destruct (observer_schedule o2 g) as [[o4 w4]|e]; [|now intros [= <- <- _]].
          intros H Hsome. apply (IHr _ _ _ _ _ H).
          destruct (decide (g = folder)) as [->|Hg];
            [rewrite lookup_insert_eq; now eexists|now rewrite lookup_insert_ne].
        + apply IHr. }
    apply (Hkeep _ _ _ _ _ _ El). rewrite lookup_insert_eq. now eexists.
  - apply elem_of_cons in Hin as [->|Hin]; [contradiction|].
    destruct (OS.path_exists fsys f).
    + destruct (observer_schedule_accepts o0 f) as (o1 & watch & -> & Hs & Hr);
        [apply Hacc; left|].
      apply (IH wp o exc Hin). intros g Hg. rewrite Hr. apply Hacc. now right.
    + apply (IH wp o exc Hin). intros g Hg. apply Hacc. now right.
Qed.

(** The configured folder exists and gets registered; a configuration
    that also names a missing folder registers only the first. *)
Lemma registered_roots_exist_witness :
  let config := {| watched_folders := ["/home/u/Downloads"; "/home/u/Missing"];
                   organized_folder := "./Organized_Files"; auto_organize := true;
                   delay_seconds := 2; max_file_size_mb := 1000; ignore_patterns := [] |} in
  let c' := fst (start_watching config downloads_fs (new_core [])) in
  is_Some (watched_paths c' !! "/home/u/Downloads")
  /\ watched_paths c' !! "/home/u/Missing" = None.
Proof.
  intros config c'.
  destruct (registered_roots_exist config downloads_fs (new_core []) eq_refl)
    as [Hnew Hall].
  split.
  - apply Hall.
    + intros folder _ H. inversion H.
    + left.
    + vm_compute. reflexivity.
  - fold c' in Hnew. destruct (watched_paths c' !! "/home/u/Missing") as [watch|] eqn:E;
      [|reflexivity].
    destruct (Hnew _ _ E) as [Hold|(_ & Hex & _)].
    + simpl in Hold. rewrite lookup_empty in Hold. discriminate Hold.
    + vm_compute in Hex. discriminate Hex.
Defined.

(** * Properties of the statistics *)

Section StatsFacts.





End StatsFacts.


(** A PDF routed to the finance folder is counted as a PDF. *)
Example stats_after_move :
  let w := process_file ["Organized_Files"] (default_config "/home/u")
             (invoice_world DbOk) "in/invoice_2023.pdf" "created" in
  let stats := get_organization_stats ["Organized_Files"] (fs w) in
  total_files stats = 1 /\ total_size stats = 10%N
  /\ by_type stats !! "PDFs" = Some (1, 10%N)
  /\ by_type stats !! "Finance_Files" = None.
Proof. vm_compute. repeat split; reflexivity. Qed.

(** * Classification and the folder of a file *)

Section FolderFacts.

Lemma split_nonempty (c : ascii) (s : string) : split c s <> [].
Proof.
  destruct s as [|a s]; simpl; [discriminate|].
  destruct (Ascii.eqb a c); [discriminate|]. now destruct (split c s).
Qed.

Lemma split_no_separator (c : ascii) (n : string) :
  rfind c n = None -> split c n = [n].
Proof.
  induction n as [|a n IH]; simpl; [reflexivity|].
  destruct (rfind c n); [discriminate|].
  destruct (Ascii.eqb a c); [discriminate|].
  intros _. now rewrite IH.
Qed.

Lemma split_append_name (c : ascii) (a n : string) :
  rfind c n = None ->
  split c (a +:+ String c n) = (split c a ++ [n])%list.
Proof.
  intros Hn. induction a as [|x a IH].
  - change ("" +:+ String c n) with (String c n). simpl.
    now rewrite Ascii.eqb_refl, (split_no_separator c n Hn).
  - rewrite append_cons. simpl. rewrite IH.
    destruct (Ascii.eqb x c); [reflexivity|].
    pose proof (split_nonempty c a) as Hne.
    now destruct (split c a).
Qed.

Lemma no_slash_not_anchor (n : string) : rfind "/" n = None -> is_anchor n = false.
Proof.
  intros H. unfold is_anchor.
  destruct (String.eqb_spec n "/") as [->|_]; [discriminate H|].
  destruct (String.eqb_spec n "//") as [->|_]; [discriminate H|reflexivity].
Qed.

Lemma name_of_parts (anchor comps : list string) (n : string) :
  is_anchor n = false ->
  name (anchor ++ comps ++ [n])%list = n.
Proof.
  intros Hn. unfold name.
  rewrite List.app_assoc, List.last_last.
  assert (H : (List.length ((anchor ++ comps) ++ [n]) =?
               (if anchored ((anchor ++ comps) ++ [n]) then 1 else 0))%nat = false).
  { apply Nat.eqb_neq. rewrite List.length_app. simpl.
    destruct (anchor ++ comps)%list as [|c l]; simpl; [now rewrite Hn|].
    destruct (is_anchor c); lia. }
  now rewrite H.
Qed.

(** The base name and the [Path] name of a plain name, alone or inside a
    folder. *)
Lemma names_in_folder (folder n : string) :
  rfind "/" n = None -> n <> "" -> n <> "." ->
  name (Path_of_string (folder +:+ "/" +:+ n)) = n
  /\ name (Path_of_string n) = n
  /\ basename n = n.
Proof.
  intros Hn He Hd.
  assert (Hc : is_component n = true).
  { unfold is_component.
    destruct (String.eqb_spec n ""); [contradiction|].
    destruct (String.eqb_spec n "."); [contradiction|reflexivity]. }
  pose proof (no_slash_not_anchor n Hn) as Ha.
  split; [|split].
  - unfold Path_of_string. change ("/" +:+ n) with (String "/" n).
    rewrite (split_append_name "/" folder n Hn), List.filter_app.
    simpl. rewrite Hc. now apply name_of_parts.
  - unfold Path_of_string. rewrite (split_no_separator "/" n Hn). simpl. rewrite Hc.
    apply (name_of_parts (anchor_of n) [] n Ha).
  - unfold basename. now rewrite Hn.
Qed.

End FolderFacts.

(** X19. Classification looks at the file name only: a file gets the
    same tags, the same category and the same destination in whatever
    folder it lies, so a keyword in a folder name gives no tag. *)
Theorem classification_ignores_folder (base_folder : Path) (folder n : string) :
  rfind "/" n = None -> n <> "" -> n <> "." ->
  get_file_tags (folder +:+ "/" +:+ n) = get_file_tags n
  /\ get_file_type (folder +:+ "/" +:+ n) = get_file_type n
  /\ get_destination_folder base_folder (folder +:+ "/" +:+ n)
       (Some (get_file_tags (folder +:+ "/" +:+ n)))
     = get_destination_folder base_folder n (Some (get_file_tags n)).
Proof.
  intros Hn He Hd.
  destruct (names_in_folder folder n Hn He Hd) as (H1 & H2 & H3).
  assert (Ht : get_file_tags (folder +:+ "/" +:+ n) = get_file_tags n).
  { unfold get_file_tags, suffix.
    now rewrite (basename_in_folder folder n Hn), H1, H2, H3. }
  assert (Hc : get_file_type (folder +:+ "/" +:+ n) = get_file_type n).
  { unfold get_file_type, suffix. now rewrite H1, H2. }
  split; [exact Ht|]. split; [exact Hc|].
  unfold get_destination_folder. now rewrite Ht, Hc.
Qed.

Lemma classification_ignores_folder_witness :
  get_file_tags "/home/u/invoices/holiday.png" = ["personal"; "type_png"]
  /\ get_file_type "/home/u/invoices/holiday.png" = "Images".
Proof.
  destruct (classification_ignores_folder [] "/home/u/invoices" "holiday.png")
    as (Ht & Hc & _).
  - reflexivity.
  - discriminate.
  - discriminate.
  - change "/home/u/invoices/holiday.png"
      with ("/home/u/invoices" +:+ "/" +:+ "holiday.png").
    rewrite Ht, Hc. vm_compute. split; reflexivity.
Defined.

(** * The time-stamped name and the status *)

(** X20. When the path the resolver chose names a regular file, which
    happens only with the time-stamped name after a thousand collisions,
    a successful move replaces that file: its entry now holds the moved
    file, and the source path is emptied. *)
Theorem fallback_replaces_existing_file (base_folder : Path) (w w' : World)
    (source_path : string) (tgs : option (list string)) (dp : string) (msg : Message) :
  move_file base_folder w source_path tgs = (w', (true, dp, msg)) ->
  let source := Path_of_string source_path in
  let desired := joinpath (get_destination_folder base_folder source_path tgs)
                          (name source) in
  let dst := handle_filename_conflict (OS.exists_ (fs w))
               (strftime_stamp (today w)) desired in
  OS.is_file (fs w) dst = true ->
  dst = numbered desired (strftime_stamp (today w))
  /\ (forall n : nat, 1 <= n <= 1000 ->
        OS.exists_ (fs w) (numbered desired (pretty n)) = true)
  /\ fs w' !! dst = fs w !! source
  /\ fs w' !! source = None.
Proof.
  intros H source desired dst Hfile.
  destruct (is_file_lookup _ _ Hfile) as [Hdtop [z Hz]].
  assert (Hex : OS.exists_ (fs w) dst = true).
  { unfold OS.exists_. now rewrite stat_not_top, Hz. }
  assert (Hfall : dst = numbered desired (strftime_stamp (today w))
                  /\ forall n : nat, 1 <= n <= 1000 ->
                       OS.exists_ (fs w) (numbered desired (pretty n)) = true).
  { subst dst. unfold handle_filename_conflict in *.
    destruct (OS.exists_ (fs w) desired) eqn:Ed; cbn [negb] in *; [|congruence].
    destruct (conflict_loop (OS.exists_ (fs w)) desired 1000 1) as [r|] eqn:El.
    - apply conflict_loop_some in El as (k & _ & _ & Hf & _). congruence.
    - split; [reflexivity|]. intros n Hn.
      eapply conflict_loop_none; [exact El|]. lia. }
  destruct Hfall as [Hdst Hall].
  split; [exact Hdst|]. split; [exact Hall|].
  pose proof (move_file_success _ _ _ _ _ _ _ H) as (Hgone & _).
  unfold move_file in H. cbv zeta in H. fold source in H. fold desired in H. fold dst in H.
  destruct (negb (OS.exists_ (fs w) source) || negb (OS.is_file (fs w) source)) eqn:Eg;
    [discriminate|].
  apply orb_false_elim in Eg as [_ Hsf]. apply negb_false_iff in Hsf.
  destruct (is_file_lookup _ _ Hsf) as [Htop [sz Hsz]].
  destruct (OS.mkdir_parents (fs w) (parent dst)) as [fs1|] eqn:Em; [|discriminate].
  destruct (OS.move fs1 source dst) as [fs2|] eqn:Emv; [|discriminate].
  injection H as <- _ _.
  assert (Hd1 : fs1 !! dst = Some (File z)).
  { eapply mkdir_from_keeps; [exact Em|exact Hz]. }
  assert (Hs1 : fs1 !! source = Some (File sz)).
  { eapply mkdir_from_keeps; [exact Em|exact Hsz]. }
  unfold OS.move in Emv.
  assert (Hnd : OS.is_dir fs1 dst = false).
  { unfold OS.is_dir. now rewrite stat_not_top, Hd1. }
  rewrite Hnd in Emv. simpl in Emv. rewrite Hs1 in Emv.
  destruct (negb (OS.is_dir fs1 (parent dst))); [discriminate|].
  injection Emv as <-. simpl in *.
  split; [now rewrite lookup_insert_eq, Hsz|].
  unfold OS.path_exists, OS.exists_ in Hgone. simpl in Hgone. fold source in Hgone.
  rewrite stat_not_top in Hgone by assumption.
  destruct (<[dst:=File sz]> (delete source fs1) !! source); [|reflexivity].
  rewrite andb_true_r in Hgone. apply negb_false_iff, String.eqb_eq in Hgone.
  subst source_path. vm_compute in Htop. discriminate Htop.
Qed.

Lemma fallback_replaces_existing_file_witness :
  exists w',
    fst (move_file ["Organized_Files"] crowded_world "in/report.docx" (Some ["work"])) = w'
    /\ fs crowded_world
         !! ["Organized_Files"; "Work_Files"; "report_20240307_090500.docx"]
       = Some (File 2)
    /\ fs w' !! ["Organized_Files"; "Work_Files"; "report_20240307_090500.docx"]
       = Some (File 3).
Proof.
  destruct (move_file ["Organized_Files"] crowded_world "in/report.docx" (Some ["work"]))
    as [w' [[success dp] msg]] eqn:E.
  assert (Hs : success = true).
  { apply (f_equal (fun r => fst (fst (snd r)))) in E. vm_compute in E. now rewrite <- E. }
  subst success. exists w'. split; [reflexivity|].
  split; [vm_compute; reflexivity|].
  destruct (fallback_replaces_existing_file _ _ _ _ _ _ _ E) as (Hdst & _ & Hnew & _).
  - vm_compute. reflexivity.
  - rewrite Hdst in Hnew. vm_compute in Hnew. exact Hnew.
Defined.

(** X21. The status lists each watched folder once and counts as many
    folders as it lists; stopping a running session clears the pending
    count and the running flag but leaves the watched folders in the
    status. *)
Theorem status_watched_folders_consistent (base_folder : Path) (c : Core) :
  let status := get_status base_folder c in
  status_watched_count status = List.length (status_watched_folders status)
  /\ NoDup (status_watched_folders status)
  /\ (forall folder, folder ∈ status_watched_folders status <->
                     is_Some (watched_paths c !! folder))
  /\ (is_running c = true ->
      let after := get_status base_folder (stop_watching c) in
      status_is_running after = false
      /\ status_pending_files after = 0
      /\ status_watched_folders after = status_watched_folders status
      /\ status_watched_count after = status_watched_count status).
Proof.
  unfold get_status. cbn [status_watched_count status_watched_folders
                          status_is_running status_pending_files].
  split; [|split; [|split]].
  - now rewrite length_fmap, length_map_to_list.
  - apply NoDup_fst_map_to_list.
  - intros folder. rewrite list_elem_of_fmap. split.
    + intros ([f watch] & -> & H). apply elem_of_map_to_list in H. now exists watch.
    + intros [watch H]. exists (folder, watch). split; [reflexivity|].
      now apply elem_of_map_to_list.
  - intros Hrun. unfold stop_watching. rewrite Hrun. cbn [negb].
    cbn [is_running pending_files watched_paths]. repeat split.
Qed.
